(** * deepint-external-source-postgres-real-time: filter compiler, coercion,
      query executor and ingestion pipeline

    A shallow embedding of [src/utils/deepint-sources.ts], [src/utils/text.ts]
    and the data paths of [src/source.ts], with the properties the
    specification states about them; and of the credential check, the
    push handler of [src/controllers/update.ts] and the retry guard of
    [src/crash-guard.ts], with further properties of the code.

    Conventions.
    - A JavaScript string is a [string]: each [ascii] stands for one UTF-16
      code unit below 256.
    - A JavaScript number is a binary64 [float].
    - A [Date] is its time value in milliseconds, [None] when invalid.
    - Code that can throw returns a [Completion].
    - The built-ins whose result depends on the engine or on the time zone
      (number and date formatting and parsing) are the fields of a
      [Runtime]; every definition that reaches one takes the runtime as its
      first argument. *)

Set Warnings "-register-all".
From Stdlib Require Import List String Ascii ZArith Arith Lia Bool Floats.
Import ListNotations.
Local Open Scope string_scope.

(* ================================================================== *)
(** * ECMAScript values and the coercions the sources rely on *)
(* ================================================================== *)

Module Js.

Inductive Error : Type := TypeError | RangeError.

Inductive Completion (A : Type) : Type :=
| Normal (a : A)
| Throw (e : Error).
Arguments Normal {A} a.
Arguments Throw {A} e.

Definition bind {A B : Type} (c : Completion A) (k : A -> Completion B)
  : Completion B :=
  match c with
  | Normal a => k a
  | Throw e => Throw e
  end.

(** [for (const x of xs) out.push(f x)], stopping at the first throw. *)
Fixpoint mapM {A B : Type} (f : A -> Completion B) (xs : list A)
  : Completion (list B) :=
  match xs with
  | [] => Normal []
  | x :: xs' =>
      bind (f x) (fun y => bind (mapM f xs') (fun ys => Normal (y :: ys)))
  end.

(** What [JSON.parse] and the [pg] driver hand to the sources, together
    with the values the sources build themselves. *)
Inductive value : Type :=
| VUndefined
| VNull
| VBool (b : bool)
| VNumber (n : float)
| VString (s : string)
| VDate (tv : option Z)
| VArray (items : list value)
| VObject (props : list (string * value)).

Record Runtime : Type := {
  (** [Number::toString(x)], radix 10. *)
  numberToString : float -> string;
  (** [StringToNumber(s)], the conversion behind [Number(s)]. *)
  stringToNumber : string -> float;
  (** [Date.parse(s)]; [None] stands for [NaN]. *)
  dateParse : string -> option Z;
  (** [Date.prototype.toString] of a valid time value. *)
  dateToString : Z -> string
}.

Definition typeof (v : value) : string :=
  match v with
  | VUndefined => "undefined"
  | VBool _ => "boolean"
  | VNumber _ => "number"
  | VString _ => "string"
  | VNull | VDate _ | VArray _ | VObject _ => "object"
  end.

Fixpoint lookup (name : string) (props : list (string * value))
  : option value :=
  match props with
  | [] => None
  | (k, v) :: rest => if String.eqb k name then Some v else lookup name rest
  end.

(** [o.name] and [o[name]] for the names the sources read: the properties
    [type], [operation], [left], [right], [children] of a filter, and the
    column names of a row.  None of the five is inherited from a prototype,
    and a column is taken not to be named like a member of
    [Object.prototype], so only own properties of plain objects answer. *)
Definition Get (o : value) (name : string) : Completion value :=
  match o with
  | VUndefined | VNull => Throw TypeError
  | VObject props =>
      Normal (match lookup name props with Some v => v | None => VUndefined end)
  | _ => Normal VUndefined
  end.

Definition lower_char (c : ascii) : ascii :=
  let n := nat_of_ascii c in
  if (((65 <=? n) && (n <=? 90))
      || ((192 <=? n) && (n <=? 222) && negb (n =? 215)))%nat
  then ascii_of_nat (n + 32)
  else c.

Fixpoint toLowerCase (s : string) : string :=
  match s with
  | EmptyString => EmptyString
  | String c s' => String (lower_char c) (toLowerCase s')
  end.

(** [s.substr(0, n)]. *)
Definition substr0 (n : nat) (s : string) : string := substring 0 n s.

(** [xs.includes(s)] on an array of strings. *)
Definition includes (xs : list string) (s : string) : bool :=
  existsb (String.eqb s) xs.

Definition digit (z : Z) : string :=
  String (ascii_of_nat (48 + Z.to_nat z)) EmptyString.

Fixpoint decimalFuel (fuel : nat) (z : Z) : string :=
  match fuel with
  | O => EmptyString
  | S fuel' =>
      if (z <? 10)%Z then digit z
      else decimalFuel fuel' (z / 10)%Z ++ digit (z mod 10)%Z
  end.

(** The text of an integer between 0 and [10 ^ 21], which is what
    [ToString] gives for such a number: its decimal digits. *)
Definition decimal (z : Z) : string := decimalFuel 21 z.

Section WithRuntime.
Variable rt : Runtime.

(** [ToString(v)], the conversion behind ["" + v] and [v + ""].  Values
    here hold no function, so an own [toString] property of an object
    is not callable and the conversion to a primitive fails. *)
Fixpoint ToString (v : value) : Completion string :=
  match v with
  | VUndefined => Normal "undefined"
  | VNull => Normal "null"
  | VBool b => Normal (if b then "true" else "false")
  | VNumber n => Normal (numberToString rt n)
  | VString s => Normal s
  | VDate None => Normal "Invalid Date"
  | VDate (Some t) => Normal (dateToString rt t)
  | VArray items =>
      (fix join (l : list value) (first : bool) : Completion string :=
         match l with
         | [] => Normal EmptyString
         | x :: l' =>
             bind (match x with
                   | VUndefined | VNull => Normal EmptyString
                   | _ => ToString x
                   end)
               (fun s =>
                  bind (join l' false)
                    (fun r => Normal ((if first then s else "," ++ s) ++ r)))
         end) items true
  | VObject props =>
      match lookup "toString" props with
      | Some _ => Throw TypeError
      | None => Normal "[object Object]"
      end
  end.

Definition float_of_Z (z : Z) : float :=
  let m := PrimFloat.of_uint63 (Uint63.of_Z (Z.abs z)) in
  if (z <? 0)%Z then PrimFloat.opp m else m.

(** [ToNumber(v)], the conversion behind [Number(v)]. *)
Definition ToNumber (v : value) : Completion float :=
  match v with
  | VUndefined => Normal PrimFloat.nan
  | VNull => Normal PrimFloat.zero
  | VBool b => Normal (if b then PrimFloat.one else PrimFloat.zero)
  | VNumber n => Normal n
  | VString s => Normal (stringToNumber rt s)
  | VDate (Some t) => Normal (float_of_Z t)
  | VDate None => Normal PrimFloat.nan
  | VArray _ | VObject _ =>
      bind (ToString v) (fun s => Normal (stringToNumber rt s))
  end.

(** [ToBoolean(v)], the conversion behind [!!v]. *)
Definition ToBoolean (v : value) : bool :=
  match v with
  | VUndefined | VNull => false
  | VBool b => b
  | VNumber n => negb (PrimFloat.is_zero n || PrimFloat.is_nan n)
  | VString s => negb (String.eqb s EmptyString)
  | VDate _ | VArray _ | VObject _ => true
  end.

Definition isNaN (n : float) : bool := PrimFloat.is_nan n.

(** The integer part of a finite float, rounding toward zero. *)
Definition truncate (n : float) : option Z :=
  match Prim2SF n with
  | S754_zero _ => Some 0%Z
  | S754_finite s m e =>
      let a := if (0 <=? e)%Z then (Z.pos m * 2 ^ e)%Z
               else (Z.pos m / 2 ^ (- e))%Z in
      Some (if s then (- a)%Z else a)
  | _ => None
  end.

(** [TimeClip(n)]. *)
Definition TimeClip (n : float) : option Z :=
  match truncate n with
  | Some t => if (Z.abs t <=? 8640000000000000)%Z then Some t else None
  | None => None
  end.

(** The time value of [new Date(v)], one argument. *)
Definition Date_new (v : value) : Completion (option Z) :=
  match v with
  | VDate tv => Normal tv
  | VString s => Normal (dateParse rt s)
  | VArray _ | VObject _ =>
      bind (ToString v) (fun s => Normal (dateParse rt s))
  | _ => bind (ToNumber v) (fun n => Normal (TimeClip n))
  end.

(** [date.toISOString()]: a [RangeError] on an invalid date.  Its
    callers here discard the string. *)
Definition Date_toISOString (tv : option Z) : Completion unit :=
  match tv with
  | Some _ => Normal tt
  | None => Throw RangeError
  end.

End WithRuntime.

(** A value that is neither an array nor an object. *)
Definition scalar (v : value) : bool :=
  match v with
  | VArray _ | VObject _ => false
  | _ => true
  end.

(** [Math.floor]. *)
Definition Math_floor (n : float) : float :=
  match Prim2SF n with
  | S754_finite s m e =>
      if (0 <=? e)%Z then n
      else
        let d := (2 ^ (- e))%Z in
        let q := (Z.pos m / d)%Z in
        if (Z.pos m mod d =? 0)%Z then n
        else if s then PrimFloat.opp (PrimFloat.of_uint63 (Uint63.of_Z (q + 1)))
        else PrimFloat.of_uint63 (Uint63.of_Z q)
  | _ => n
  end.

(** [xs[n]] for a number [n]: an element when [n] is an integer within the
    bounds, [undefined] (here [None]) otherwise. *)
Definition array_get {A : Type} (xs : list A) (n : float) : option A :=
  match Prim2SF n with
  | S754_zero _ => nth_error xs 0
  | S754_finite false m e =>
      let i := if (0 <=? e)%Z then Some (Z.pos m * 2 ^ e)%Z
               else if (Z.pos m mod 2 ^ (- e) =? 0)%Z
                    then Some (Z.pos m / 2 ^ (- e))%Z
                    else None in
      match i with
      | Some z =>
          if (z <? Z.of_nat (List.length xs))%Z then nth_error xs (Z.to_nat z)
          else None
      | None => None
      end
  | _ => None
  end.

(** [StrWhiteSpaceChar], among the code units below 256. *)
Definition isWhiteSpace (c : ascii) : bool :=
  let n := nat_of_ascii c in
  ((n =? 9) || (n =? 10) || (n =? 11) || (n =? 12) || (n =? 13)
   || (n =? 32) || (n =? 160))%nat.

Fixpoint trimStart (s : string) : string :=
  match s with
  | EmptyString => EmptyString
  | String c s' => if isWhiteSpace c then trimStart s' else s
  end.

(** The value of the longest prefix of decimal digits, [None] when that
    prefix is empty; [acc] is the value of the digits read so far. *)
Fixpoint digitsPrefix (s : string) (acc : option Z) : option Z :=
  match s with
  | EmptyString => acc
  | String c s' =>
      let n := nat_of_ascii c in
      if ((48 <=? n) && (n <=? 57))%nat
      then digitsPrefix s'
             (Some (10 * match acc with Some a => a | None => 0 end
                    + Z.of_nat (n - 48))%Z)
      else acc
  end.

(** The number nearest to a natural number, ties to even. *)
Definition integerToNumber (z : Z) : float :=
  SF2Prim (binary_normalize prec emax z 0 false).

(** [parseInt(s, 10)] on a string, every digit taken into account. *)
Definition parseInt (s : string) : float :=
  let s := trimStart s in
  let '(negative, s) :=
    match s with
    | String c s' =>
        if Ascii.eqb c "-" then (true, s')
        else if Ascii.eqb c "+" then (false, s')
        else (false, s)
    | EmptyString => (false, s)
    end in
  match digitsPrefix s None with
  | None => PrimFloat.nan
  | Some z =>
      if negative then PrimFloat.opp (integerToNumber z) else integerToNumber z
  end.

(** [s.split(c)] for a one-character separator. *)
Fixpoint split (c : ascii) (s : string) : list string :=
  match s with
  | EmptyString => [EmptyString]
  | String a s' =>
      if Ascii.eqb a c then EmptyString :: split c s'
      else
        match split c s' with
        | [] => [String a EmptyString]
        | piece :: pieces => String a piece :: pieces
        end
  end.

End Js.

Module JsNotations.
Notation "x <- c ;; k" := (Js.bind c (fun x => k))
  (at level 61, c at next level, right associativity).
End JsNotations.

(* ================================================================== *)
(** * [src/utils/deepint-sources.ts] *)
(* ================================================================== *)

Module QueryTree.

(** [interface QueryTree].  [right] is declared a string and holds [null]
    for a null literal: [None] here. *)
Inductive t : Type := mk {
  type : string;
  operation : string;
  left : float;
  right : option string;
  children : list t
}.

End QueryTree.

(** [type FeatureType].  [turnInto] treats [text] in its [default:] case. *)
Inductive FeatureType : Type := nominal | text | numeric | logic | date.

Module Feature.

Record t : Type := mk {
  index : nat;
  type : FeatureType;
  name : string
}.

End Feature.

Module SQLCondition.

Record t : Type := mk {
  sql : string;
  params : list Js.value
}.

End SQLCondition.

Module DeepintSources.
Import Js JsNotations.

Definition QUERY_TREE_MAX_DEPH : nat := 4.
Definition QUERY_TREE_MAX_CHILDREN : nat := 16.

Definition NODE_TYPES : list string :=
  ["single"; "one"; "anyof"; "allof"; "not"].

Definition OPERATIONS : list string :=
  ["null"; "eq"; "lt"; "le"; "lte"; "gt"; "ge"; "gte";
   "cn"; "cni"; "sw"; "swi"; "ew"; "ewi"].

(** [type in { anyof: 1, allof: 1, not: 1 }], for a [type] that already is
    one of [NODE_TYPES]. *)
Definition isComposite (type : string) : bool :=
  includes ["anyof"; "allof"; "not"] type.

(** The object [sanitized] starts as. *)
Definition blankTree : QueryTree.t :=
  QueryTree.mk "anyof" EmptyString (-1)%float (Some EmptyString) [].

Section WithRuntime.
Variable rt : Runtime.

(** [sanitizeQueryTree], by recursion on the number of levels still allowed
    below the node: [levels] is [QUERY_TREE_MAX_DEPH - depth], and the test
    [depth < QUERY_TREE_MAX_DEPH] is [levels] being a successor. *)
Fixpoint sanitizeLevels (levels : nat) (tree : value)
  : Completion QueryTree.t :=
  if String.eqb (typeof tree) "object" then
    rawType <- Get tree "type" ;;
    typeText <- ToString rt rawType ;;
    let type := toLowerCase typeText in
    let type := if includes NODE_TYPES type then type else "anyof" in
    rawOperation <- Get tree "operation" ;;
    operationText <- ToString rt rawOperation ;;
    let operation := toLowerCase operationText in
    let operation :=
      if includes OPERATIONS operation then operation else EmptyString in
    rawLeft <- Get tree "left" ;;
    let left :=
      match rawLeft with
      | VNumber n => Math_floor n
      | _ => (-1)%float
      end in
    rawRight <- Get tree "right" ;;
    right <-
      match rawRight with
      | VNull => Normal None
      | _ =>
          rightText <- ToString rt rawRight ;;
          Normal (Some (if (1024 <? String.length rightText)%nat
                        then substr0 1024 rightText
                        else rightText))
      end ;;
    rawChildren <- Get tree "children" ;;
    children <-
      match levels, isComposite type, rawChildren with
      | S levels', true, VArray items =>
          mapM (sanitizeLevels levels') (firstn QUERY_TREE_MAX_CHILDREN items)
      | _, _, _ => Normal []
      end ;;
    Normal (QueryTree.mk type operation left right children)
  else
    Normal blankTree.

Definition sanitizeQueryTree (tree : value) (depth : nat)
  : Completion QueryTree.t :=
  sanitizeLevels (QUERY_TREE_MAX_DEPH - depth) tree.

(** [data === s] for a string literal [s]. *)
Definition isString (data : value) (s : string) : bool :=
  match data with
  | VString d => String.eqb d s
  | _ => false
  end.

(** [try { c } catch (ex) { handler }]. *)
Definition tryCatch {A : Type} (c : Completion A) (handler : Completion A)
  : Completion A :=
  match c with
  | Normal a => Normal a
  | Throw _ => handler
  end.

Definition turnInto (data : value) (type : FeatureType) : Completion value :=
  match data with
  | VNull | VUndefined => Normal VNull
  | _ =>
      match type with
      | nominal =>
          s <- ToString rt data ;;
          Normal (VString (substr0 255 s))
      | date =>
          tryCatch
            (tv <- Date_new rt data ;;
             _ <- Date_toISOString tv ;;
             Normal (VDate tv))
            (Normal (VDate (Some 0%Z)))
      | numeric =>
          n <- ToNumber rt data ;;
          if isNaN n then Normal VNull else Normal (VNumber n)
      | logic =>
          if isString data "true" || isString data "1" then Normal (VBool true)
          else if isString data "false" || isString data "0"
               then Normal (VBool false)
               else Normal (VBool (ToBoolean data))
      | text =>
          s <- ToString rt data ;;
          Normal (VString s)
      end
  end.

End WithRuntime.

(** [text.replace(/c/g, "\\" + c)] for a single character [c]. *)
Fixpoint escapeChar (c : ascii) (text : string) : string :=
  match text with
  | EmptyString => EmptyString
  | String a rest =>
      if Ascii.eqb a c then String "\" (String a (escapeChar c rest))
      else String a (escapeChar c rest)
  end.

Definition replaceWildcards (text : string) : string :=
  escapeChar "_" (escapeChar "%" text).

(** The double quote that wraps a column name. *)
Definition DQ : string := String (ascii_of_nat 34) EmptyString.

Definition emptyCondition : SQLCondition.t := SQLCondition.mk EmptyString [].

(** [if (s)] on a string. *)
Definition truthy (s : string) : bool := negb (String.eqb s EmptyString).

(** [for (const x of xs) { s = body(s, x) }]. *)
Definition forOf {A S : Type} (body : S -> A -> Completion S)
  : list A -> S -> Completion S :=
  fix loop (xs : list A) (s : S) : Completion S :=
    match xs with
    | [] => Normal s
    | x :: xs' => bind (body s x) (fun s' => loop xs' s')
    end.

(** The loop variables [sql], [fistQuery], [params] of a composite case. *)
Definition JoinState : Type := (string * bool * list value)%type.

(** The body of the loop over the children, after [subQ] is computed.  The
    three composite cases repeat it with [" OR ("], [" AND ("], [" OR ("]. *)
Definition joinChild (sep : string) (st : JoinState) (subQ : SQLCondition.t)
  : JoinState :=
  let '(sql, fistQuery, params) := st in
  if truthy (SQLCondition.sql subQ) then
    ((if fistQuery then sql ++ "(" ++ SQLCondition.sql subQ ++ ")"
      else sql ++ sep ++ SQLCondition.sql subQ ++ ")"),
     false,
     (params ++ SQLCondition.params subQ)%list)
  else st.

Section Compile.
Variable rt : Runtime.
Variable features : list Feature.t.

(** The [default:] case of the outer [switch]: a leaf. *)
Definition leafCondition (query : QueryTree.t) : Completion SQLCondition.t :=
  let operation := QueryTree.operation query in
  if negb (String.eqb operation "null")
     && match QueryTree.right query with None => true | Some _ => false end
  then Normal emptyCondition
  else
    match array_get features (QueryTree.left query) with
    | None => Normal emptyCondition
    | Some feature =>
        let name := Feature.name feature in
        cmp <- turnInto rt
                 (match QueryTree.right query with
                  | None => VNull
                  | Some s => VString s
                  end)
                 (Feature.type feature) ;;
        if String.eqb operation "null" then
          Normal (SQLCondition.mk (DQ ++ name ++ DQ ++ " IS NULL") [])
        else if String.eqb operation "eq" then
          Normal (SQLCondition.mk (DQ ++ name ++ DQ ++ " = ?") [cmp])
        else if String.eqb operation "lt" then
          Normal (SQLCondition.mk (DQ ++ name ++ DQ ++ " < ?") [cmp])
        else if String.eqb operation "le" || String.eqb operation "lte" then
          Normal (SQLCondition.mk (DQ ++ name ++ DQ ++ " <= ?") [cmp])
        else if String.eqb operation "gt" then
          Normal (SQLCondition.mk (DQ ++ name ++ DQ ++ " > ?") [cmp])
        else if String.eqb operation "ge" || String.eqb operation "gte" then
          Normal (SQLCondition.mk (DQ ++ name ++ DQ ++ " >= ?") [cmp])
        else if String.eqb operation "cn" then
          lit <- ToString rt cmp ;;
          Normal (SQLCondition.mk (DQ ++ name ++ DQ ++ " LIKE ?")
                    [VString ("%" ++ replaceWildcards lit ++ "%")])
        else if String.eqb operation "cni" then
          lit <- ToString rt cmp ;;
          Normal (SQLCondition.mk
                    ("LOWER(" ++ DQ ++ name ++ DQ ++ ")" ++ " LIKE LOWER(?)")
                    [VString ("%" ++ replaceWildcards lit ++ "%")])
        else if String.eqb operation "sw" then
          lit <- ToString rt cmp ;;
          Normal (SQLCondition.mk (DQ ++ name ++ DQ ++ " LIKE ?")
                    [VString (replaceWildcards lit ++ "%")])
        else if String.eqb operation "swi" then
          lit <- ToString rt cmp ;;
          Normal (SQLCondition.mk
                    ("LOWER(" ++ DQ ++ name ++ DQ ++ ")" ++ " LIKE LOWER(?)")
                    [VString (replaceWildcards lit ++ "%")])
        else if String.eqb operation "ew" then
          lit <- ToString rt cmp ;;
          Normal (SQLCondition.mk (DQ ++ name ++ DQ ++ " LIKE ?")
                    [VString ("%" ++ replaceWildcards lit)])
        else if String.eqb operation "ewi" then
          lit <- ToString rt cmp ;;
          Normal (SQLCondition.mk
                    ("LOWER(" ++ DQ ++ name ++ DQ ++ ")" ++ " LIKE LOWER(?)")
                    [VString ("%" ++ replaceWildcards lit)])
        else Normal emptyCondition
    end.

(** [toSQLCondition] on a node that is not [null]. *)
Fixpoint compileNode (query : QueryTree.t) : Completion SQLCondition.t :=
  let 'QueryTree.mk type _ _ _ children := query in
  let joined (sep : string) : Completion JoinState :=
    forOf (fun st child =>
             subQ <- compileNode child ;;
             Normal (joinChild sep st subQ))
      children (EmptyString, true, []) in
  if String.eqb type "anyof" then
    st <- joined " OR (" ;;
    let '(sql, _, params) := st in
    Normal (SQLCondition.mk sql params)
  else if String.eqb type "allof" then
    st <- joined " AND (" ;;
    let '(sql, _, params) := st in
    Normal (SQLCondition.mk sql params)
  else if String.eqb type "not" then
    st <- joined " OR (" ;;
    let '(sql, _, params) := st in
    Normal (SQLCondition.mk
              (if truthy sql then "NOT( " ++ sql ++ " )" else EmptyString)
              params)
  else leafCondition query.

(** [toSQLCondition(features, query)]; [None] is the [null] filter. *)
Definition toSQLCondition (query : option QueryTree.t)
  : Completion SQLCondition.t :=
  match query with
  | None => Normal emptyCondition
  | Some q => compileNode q
  end.

End Compile.

End DeepintSources.

(* ================================================================== *)
(** * A small runtime, for evaluating the model on concrete inputs *)
(* ================================================================== *)

Module SmallRuntime.
Import Js.

Fixpoint digitsValue (s : string) (acc : Z) : option Z :=
  match s with
  | EmptyString => Some acc
  | String c s' =>
      let n := nat_of_ascii c in
      if ((48 <=? n) && (n <=? 57))%nat
      then digitsValue s' (10 * acc + Z.of_nat (n - 48))%Z
      else None
  end.

(** [Number::toString] on [NaN], the infinities and the integers below
    [2 ^ 53] in magnitude; the empty string elsewhere. *)
Definition numberToString (n : float) : string :=
  if PrimFloat.is_nan n then "NaN"
  else if PrimFloat.eqb n PrimFloat.infinity then "Infinity"
  else if PrimFloat.eqb n PrimFloat.neg_infinity then "-Infinity"
  else
    match truncate n with
    | Some z =>
        if PrimFloat.eqb (float_of_Z z) n && (Z.abs z <? 2 ^ 53)%Z
        then (if (z <? 0)%Z then "-" else EmptyString) ++ decimal (Z.abs z)
        else EmptyString
    | None => EmptyString
    end.

(** [StringToNumber] on the empty string and on unsigned decimal integers
    below [2 ^ 53]; [NaN] elsewhere. *)
Definition stringToNumber (s : string) : float :=
  match digitsValue s 0%Z with
  | Some z => if (z <? 2 ^ 53)%Z then float_of_Z z else PrimFloat.nan
  | None => PrimFloat.nan
  end.

(** No string is a date, and a date prints as its time value. *)
Definition runtime : Runtime := {|
  Js.numberToString := numberToString;
  Js.stringToNumber := stringToNumber;
  Js.dateParse := fun _ => None;
  Js.dateToString := fun t =>
    (if (t <? 0)%Z then "-" else EmptyString) ++ decimal (Z.abs t)
|}.

End SmallRuntime.

(* ================================================================== *)
(** * [src/utils/text.ts] *)
(* ================================================================== *)

Module Text.

(** [queryTemplate.indexOf("?") >= 0]. *)
Fixpoint hasPlaceholder (s : string) : bool :=
  match s with
  | EmptyString => false
  | String c s' => Ascii.eqb c "?" || hasPlaceholder s'
  end.

(** [queryTemplate.replace("?", r)]: the first occurrence only. *)
Fixpoint replaceFirst (r : string) (s : string) : string :=
  match s with
  | EmptyString => EmptyString
  | String c s' =>
      if Ascii.eqb c "?" then r ++ s' else String c (replaceFirst r s')
  end.

(** The [while] loop of [toPostgresTemplate].  Each round removes one
    placeholder, so the length of the template bounds the rounds. *)
Fixpoint templateLoop (rounds : nat) (queryTemplate : string) (i : Z)
  : string :=
  match rounds with
  | O => queryTemplate
  | S rounds' =>
      if hasPlaceholder queryTemplate
      then templateLoop rounds'
             (replaceFirst ("$" ++ Js.decimal i) queryTemplate) (i + 1)%Z
      else queryTemplate
  end.

Definition toPostgresTemplate (queryTemplate : string) : string :=
  templateLoop (String.length queryTemplate) queryTemplate 1%Z.

(** [Buffer.from(s, 'utf8')], for code units below 256. *)
Definition utf8Char (c : ascii) : list Byte.byte :=
  let n := nat_of_ascii c in
  if (n <? 128)%nat then [byte_of_ascii c]
  else [byte_of_ascii (ascii_of_nat (192 + n / 64));
        byte_of_ascii (ascii_of_nat (128 + n mod 64))].

Fixpoint utf8 (s : string) : list Byte.byte :=
  match s with
  | EmptyString => []
  | String c s' => (utf8Char c ++ utf8 s')%list
  end.

Fixpoint sameBytes (a b : list Byte.byte) : bool :=
  match a, b with
  | [], [] => true
  | x :: a', y :: b' => Byte.eqb x y && sameBytes a' b'
  | _, _ => false
  end.

(** [Crypto.timingSafeEqual]: buffers of different lengths are an error. *)
Definition timingSafeEqual (a b : list Byte.byte) : Js.Completion bool :=
  if (List.length a =? List.length b)%nat then Js.Normal (sameBytes a b)
  else Js.Throw Js.RangeError.

Definition secureStringCompare (a b : string) : bool :=
  match timingSafeEqual (utf8 a) (utf8 b) with
  | Js.Normal equal => equal
  | Js.Throw _ => false
  end.

End Text.

(* ================================================================== *)
(** * PostgreSQL's [LIKE] *)
(* ================================================================== *)

Module Postgres.

(** [subject LIKE pattern] with the default escape character, as the
    PostgreSQL manual defines it: [%] matches any run of characters, [_]
    any one character, and a backslash makes the next pattern character
    stand for itself.  A pattern that ends in a lone backslash is an error
    in PostgreSQL; here it matches nothing. *)
Fixpoint like (pattern : string) : string -> bool :=
  match pattern with
  | EmptyString =>
      fun subject =>
        match subject with EmptyString => true | String _ _ => false end
  | String p pattern' =>
      if Ascii.eqb p "\" then
        match pattern' with
        | EmptyString => fun _ => false
        | String q pattern'' =>
            fun subject =>
              match subject with
              | EmptyString => false
              | String c subject' => Ascii.eqb c q && like pattern'' subject'
              end
        end
      else if Ascii.eqb p "%" then
        fix anywhere (subject : string) : bool :=
          like pattern' subject
          || match subject with
             | EmptyString => false
             | String _ subject' => anywhere subject'
             end
      else if Ascii.eqb p "_" then
        fun subject =>
          match subject with
          | EmptyString => false
          | String _ subject' => like pattern' subject'
          end
      else
        fun subject =>
          match subject with
          | EmptyString => false
          | String c subject' => Ascii.eqb c p && like pattern' subject'
          end
  end.

End Postgres.

(* ================================================================== *)
(** * [src/config.ts] *)
(* ================================================================== *)

Module FieldConfig.

(** One entry of [fields] in a table mapping. *)
Record t : Type := mk {
  type : string;
  name : string
}.

End FieldConfig.

Module Config.

(** [interface DataSourceTableConfig]. *)
Record DataSourceTableConfig : Type := mkTableConfig {
  table : string;
  publicKey : string;
  secretKey : string;
  fields : list FieldConfig.t;
  topic : option string
}.

End Config.

(* ================================================================== *)
(** * [src/source.ts] *)
(* ================================================================== *)

Module Source.
Import Js JsNotations DeepintSources.

Definition DEEPINT_UPDATE_INSTANCES_LIMIT : nat := 100.
Definition CURSOR_READ_AMOUNT : nat := 100.

(** [InstanceType[]], one value per field. *)
Definition Instance : Type := list value.

(** A row as the driver returns it: column name and value. *)
Definition Row : Type := list (string * value).

(** [interface DataSourceTable].  [updateSem] is the number of permits
    the semaphore holds. *)
Record DataSourceTable : Type := mkTable {
  table : string;
  publicKey : string;
  secretKey : string;
  fields : list Feature.t;
  updateSem : nat;
  updateQueue : list Instance;
  requiredUpdate : bool
}.

Definition withUpdateSem (t : DataSourceTable) (n : nat) : DataSourceTable :=
  mkTable (table t) (publicKey t) (secretKey t) (fields t)
    n (updateQueue t) (requiredUpdate t).

Definition withUpdateQueue (t : DataSourceTable) (q : list Instance)
  : DataSourceTable :=
  mkTable (table t) (publicKey t) (secretKey t) (fields t)
    (updateSem t) q (requiredUpdate t).

Definition withRequiredUpdate (t : DataSourceTable) (b : bool)
  : DataSourceTable :=
  mkTable (table t) (publicKey t) (secretKey t) (fields t)
    (updateSem t) (updateQueue t) b.

(** How a promise ends, or that it never does. *)
Inductive Promise (A : Type) : Type :=
| Resolved (a : A)
| Rejected (reason : string)
| Unsettled.
Arguments Resolved {A} a.
Arguments Rejected {A} reason.
Arguments Unsettled {A}.

(** [xs.join(sep)] on an array of strings. *)
Fixpoint join (sep : string) (xs : list string) : string :=
  match xs with
  | [] => EmptyString
  | [x] => x
  | x :: xs' => x ++ sep ++ join sep xs'
  end.

(** ** The update service *)

(** What the external platform answers to one [Request.post]. *)
Inductive Response : Type :=
| TransportError (err : string)
| Status (statusCode : Z).

(** The callback of [sendInstancesToDeepIntelligence]. *)
Definition sendSettles (r : Response) : Promise unit :=
  match r with
  | TransportError err => Rejected err
  | Status statusCode =>
      if (statusCode =? 200)%Z then Resolved tt
      else Rejected ("Status code: " ++ decimal statusCode)
  end.

(** What the worker asks of the outside. *)
Inductive Effect : Type :=
| Post (publicKey secretKey : string) (instances : list Instance)
| SetTimeout (ms : Z)
| ConsoleError (ex : string)
| ConsoleLog.

(** Where [runUpdateServiceTable] is suspended. *)
Inductive Worker : Type :=
| Acquiring
| Sending (instancesToPush : list Instance)
| Waiting (instancesToPush : list Instance)
| Finished.

(** What wakes it. *)
Inductive Resume : Type :=
| Acquired
| Responded (r : Response)
| TimerFired.

(** [while (instancesToPush.length < DEEPINT_UPDATE_INSTANCES_LIMIT &&
    table.updateQueue.length > 0) instancesToPush.push(table.updateQueue.shift())]. *)
Fixpoint drain (instancesToPush updateQueue : list Instance)
  : list Instance * list Instance :=
  match updateQueue with
  | [] => (instancesToPush, [])
  | first :: rest =>
      if (List.length instancesToPush <? DEEPINT_UPDATE_INSTANCES_LIMIT)%nat
      then drain (instancesToPush ++ [first])%list rest
      else (instancesToPush, updateQueue)
  end.

Section UpdateService.
(** [this.closed] and [Config.getInstance().logEvents]. *)
Variable closed : bool.
Variable logEvents : bool.

(** The head of the outer loop, [while (!this.closed)], runs into the
    [await] on the semaphore. *)
Definition loopHead : Worker := if closed then Finished else Acquiring.

(** One stretch of [runUpdateServiceTable], from one suspension to the
    next; [None] when [r] is not what the worker is suspended on. *)
Definition resume (w : Worker) (t : DataSourceTable) (r : Resume)
  : option (Worker * DataSourceTable * list Effect) :=
  match w, r with
  | Acquiring, Acquired =>
      match updateSem t with
      | O => None
      | S permits =>
          let t := withUpdateSem t permits in
          if negb (requiredUpdate t)
             && (List.length (updateQueue t) =? 0)%nat
          then Some (loopHead, t, [])
          else
            let '(instancesToPush, rest) := drain [] (updateQueue t) in
            let t := withRequiredUpdate (withUpdateQueue t rest) false in
            Some (Sending instancesToPush, t,
                  [Post (publicKey t) (secretKey t) instancesToPush])
      end
  | Sending instancesToPush, Responded r =>
      match sendSettles r with
      | Resolved _ =>
          Some (loopHead, t, if logEvents then [ConsoleLog] else [])
      | Rejected ex =>
          Some (Waiting instancesToPush, t, [ConsoleError ex; SetTimeout 5000])
      | Unsettled => None
      end
  | Waiting instancesToPush, TimerFired =>
      Some (Sending instancesToPush, t,
            [Post (publicKey t) (secretKey t) instancesToPush])
  | _, _ => None
  end.

(** [noticeUpdate]. *)
Definition noticeUpdate (t : DataSourceTable) : DataSourceTable :=
  withUpdateSem (withRequiredUpdate t true) (S (updateSem t)).

(** [table.updateQueue.push(instance)], the success callback of
    [pushInstance]. *)
Definition enqueue (t : DataSourceTable) (instance : Instance)
  : DataSourceTable :=
  withUpdateQueue t (updateQueue t ++ [instance])%list.

(** Everything that touches one source: request handlers enqueue and
    notice, the worker resumes. *)
Inductive Action : Type :=
| Enqueue (instance : Instance)
| Notice
| Wake (r : Resume).

Definition State : Type := (Worker * DataSourceTable)%type.

(** An action that is not enabled leaves the state as it is. *)
Definition step (s : State) (a : Action) : State * list Effect :=
  let '(w, t) := s in
  match a with
  | Enqueue instance => ((w, enqueue t instance), [])
  | Notice => ((w, noticeUpdate t), [])
  | Wake r =>
      match resume w t r with
      | Some (w', t', effects) => ((w', t'), effects)
      | None => (s, [])
      end
  end.

Fixpoint run (s : State) (actions : list Action) : State * list Effect :=
  match actions with
  | [] => (s, [])
  | a :: rest =>
      let '(s', effects) := step s a in
      let '(s'', effects') := run s' rest in
      (s'', (effects ++ effects')%list)
  end.



(** The batch the worker holds outside the queue. *)
Definition inFlight (w : Worker) : list Instance :=
  match w with
  | Sending instancesToPush | Waiting instancesToPush => instancesToPush
  | Acquiring | Finished => []
  end.

End UpdateService.



(** ** Filters, inserts and queries *)

(** The outcome of [pool.query(text, values, callback)]. *)
Inductive QueryResult : Type :=
| QueryFailed (error : string)
| QueryRows (rows : list Row).

(** The outcome of one [cursor.read(amount, callback)]. *)
Inductive ReadResult : Type :=
| ReadFailed (err : string)
| ReadRows (rows : list Row).

(** The outcome of [pool.connect()]: a failure, or a client whose cursor
    answers the successive reads with [reads] and with no rows after
    them. *)
Inductive Connection : Type :=
| ConnectFailed (ex : string)
| Connected (reads : list ReadResult).

(** What [query] does to its callbacks, its cursor and its client. *)
Inductive QueryEffect : Type :=
| OpenCursor (sentence : string) (values : list value)
| OnStart (features : list Feature.t)
| Read (amount : nat)
| OnRow (instance : Instance)
| CloseCursor
| ReleaseClient.

(** The reason an [async] function rejects with when its body throws. *)
Definition thrown (e : Js.Error) : string :=
  match e with
  | TypeError => "TypeError"
  | RangeError => "RangeError"
  end.

(** ["" + table] for a [DataSourceTable]: a plain object with no
    [toString] of its own. *)
Definition tableText (t : DataSourceTable) : string := "[object Object]".

(** The statement [pushInstance] builds, before [toPostgresTemplate]. *)
Definition insertSentence (t : DataSourceTable) (instance : Instance)
  : string * list value :=
  let sqlKeys := map (fun field => DQ ++ Feature.name field ++ DQ) (fields t) in
  let values :=
    map (fun field => nth (Feature.index field) instance VUndefined)
      (fields t) in
  let qm := map (fun _ : Feature.t => "?") (fields t) in
  ("INSERT INTO " ++ DQ ++ tableText t ++ DQ ++ "("
     ++ join "," sqlKeys ++ ") VALUES (" ++ join "," qm ++ ")",
   values).

Section Database.
Variable rt : Runtime.
(** The database behind the pool: what a statement does to it and what it
    answers. *)
Variable Db : Type.
Variable poolQuery : Db -> string -> list value -> Db * QueryResult.

Definition sanitizeFilter (json : value) : Completion (option QueryTree.t) :=
  if negb (ToBoolean json) then Normal None
  else
    tree <- sanitizeQueryTree rt json 0 ;;
    Normal (Some tree).

Definition pushInstance (t : DataSourceTable) (instance : Instance) (d : Db)
  : Db * DataSourceTable * Promise unit :=
  let '(sentence, values) := insertSentence t instance in
  let '(d', result) := poolQuery d (Text.toPostgresTemplate sentence) values in
  match result with
  | QueryFailed error => (d', t, Rejected error)
  | QueryRows _ => (d', withUpdateQueue t (updateQueue t ++ [instance])%list,
                    Resolved tt)
  end.

(** [for (const instance of instances) await this.pushInstance(...)]: a
    rejected [await] throws, which ends the loop and rejects. *)
Fixpoint pushInstances (t : DataSourceTable) (instances : list Instance)
  (d : Db) : Db * DataSourceTable * Promise unit :=
  match instances with
  | [] => (d, t, Resolved tt)
  | instance :: rest =>
      match pushInstance t instance d with
      | (d', t', Resolved _) => pushInstances t' rest d'
      | (d', t', Rejected error) => (d', t', Rejected error)
      | (d', t', Unsettled) => (d', t', Unsettled)
      end
  end.

(** The instance built from one row: [turnInto(row[feature.name],
    feature.type)] for each feature. *)
Definition rowInstance (features : list Feature.t) (row : Row)
  : Completion Instance :=
  mapM (fun feature =>
          v <- Get (VObject row) (Feature.name feature) ;;
          turnInto rt v (Feature.type feature))
    features.

(** [for (const row of partialResuls) { ...; onRow(instance) }]; the flag
    is [false] when building an instance threw. *)
Fixpoint deliver (features : list Feature.t) (rows : list Row)
  : list QueryEffect * bool :=
  match rows with
  | [] => ([], true)
  | row :: rows' =>
      match rowInstance features row with
      | Normal instance =>
          let '(effects, ok) := deliver features rows' in
          (OnRow instance :: effects, ok)
      | Throw _ => ([], false)
      end
  end.

(** [while (!resultsEnded)]: a failed read counts as a read of no rows,
    and a read of no rows ends the loop. *)
Fixpoint readLoop (features : list Feature.t) (reads : list ReadResult)
  : list QueryEffect * bool :=
  match reads with
  | ReadRows (row :: rows) :: reads' =>
      let '(effects, ok) := deliver features (row :: rows) in
      if ok then
        let '(effects', ok') := readLoop features reads' in
        (Read CURSOR_READ_AMOUNT :: effects ++ effects', ok')%list
      else (Read CURSOR_READ_AMOUNT :: effects, false)
  | _ => ([Read CURSOR_READ_AMOUNT], true)
  end.

(** The statement of [query], with the features the rows are read by. *)
Definition selectSentence (t : DataSourceTable) (filter : option QueryTree.t)
  (order : float) (dir : string) (skip limit : option float)
  (projection : list float)
  : Completion (list Feature.t * string * list value) :=
  let projected :=
    flat_map (fun f => match array_get (fields t) f with
                       | Some field => [field]
                       | None => []
                       end) projection in
  let features :=
    match projection with [] => fields t | _ :: _ => projected end in
  let sentence :=
    "SELECT " ++
    match projection with
    | [] => "*"
    | _ :: _ =>
        join ", " (map (fun field => DQ ++ Feature.name field ++ DQ) projected)
    end ++ " FROM " ++ DQ ++ table t ++ DQ in
  cond1 <- toSQLCondition rt (fields t) filter ;;
  let sentence :=
    if truthy (SQLCondition.sql cond1)
    then sentence ++ " WHERE " ++ SQLCondition.sql cond1
    else sentence in
  let values :=
    if truthy (SQLCondition.sql cond1) then SQLCondition.params cond1 else [] in
  let sentence :=
    match PrimFloat.leb 0 order, array_get (fields t) order with
    | true, Some field =>
        sentence ++ " ORDER BY " ++ DQ ++ Feature.name field ++ DQ ++ " "
          ++ (if String.eqb dir "desc" then "DESC" else "ASC")
    | _, _ => sentence
    end in
  let sentence :=
    match limit with
    | Some l => if PrimFloat.ltb 0 l
                then sentence ++ " LIMIT " ++ numberToString rt l
                else sentence
    | None => sentence
    end in
  let sentence :=
    match skip with
    | Some s => if PrimFloat.ltb 0 s
                then sentence ++ " OFFSET " ++ numberToString rt s
                else sentence
    | None => sentence
    end in
  Normal (features, sentence, values).

(** [query]: the effects in order, and how the returned promise ends. *)
Definition query (t : DataSourceTable) (filter : option QueryTree.t)
  (order : float) (dir : string) (skip limit : option float)
  (projection : list float) (connection : Connection)
  : list QueryEffect * Promise unit :=
  match selectSentence t filter order dir skip limit projection with
  | Throw e => ([], Rejected (thrown e))
  | Normal (features, sentence, values) =>
      match connection with
      | ConnectFailed ex => ([], Rejected ex)
      | Connected reads =>
          let '(effects, ok) := readLoop features reads in
          if ok then
            (OpenCursor sentence values :: OnStart features :: effects
               ++ [CloseCursor; ReleaseClient],
             Resolved tt)%list
          else
            (OpenCursor sentence values :: OnStart features :: effects,
             Unsettled)
      end
  end.

(** The statement of [getNominalValues] for a nominal field. *)
Definition nominalSentence (t : DataSourceTable) (cond1 : SQLCondition.t)
  (fieldName : string) (query : string) : string * list value :=
  let sentence :=
    "SELECT DISTINCT " ++ DQ ++ fieldName ++ DQ
      ++ " FROM " ++ DQ ++ table t ++ DQ in
  let '(sentence, values) :=
    if truthy (SQLCondition.sql cond1) then
      if truthy query then
        (sentence ++ " WHERE (" ++ SQLCondition.sql cond1 ++ ") AND "
           ++ DQ ++ fieldName ++ DQ ++ " LIKE ?",
         (SQLCondition.params cond1
            ++ [VString (replaceWildcards query ++ "%")])%list)
      else
        (sentence ++ " WHERE " ++ SQLCondition.sql cond1,
         SQLCondition.params cond1)
    else if truthy query then
      (sentence ++ " WHERE " ++ DQ ++ fieldName ++ DQ ++ " LIKE ?",
       [VString (replaceWildcards query ++ "%")])
    else (sentence, []) in
  (sentence ++ " ORDER BY " ++ DQ ++ fieldName ++ DQ ++ " " ++ " LIMIT 128",
   values).

(** What [getNominalValues] sends to the pool; [None] when it answers
    the empty list without a statement. *)
Definition nominalRequest (t : DataSourceTable) (filter : option QueryTree.t)
  (query : string) (feature : float)
  : Completion (option (string * string * list value)) :=
  match array_get (fields t) feature with
  | None => Normal None
  | Some field =>
      match Feature.type field with
      | nominal =>
          cond1 <- toSQLCondition rt (fields t) filter ;;
          let fieldName := Feature.name field in
          let query := toLowerCase query in
          let '(sentence, values) := nominalSentence t cond1 fieldName query in
          Normal (Some (fieldName, sentence, values))
      | _ => Normal None
      end
  end.

Definition getNominalValues (t : DataSourceTable) (filter : option QueryTree.t)
  (query : string) (feature : float) (d : Db) : Db * Promise (list value) :=
  match nominalRequest t filter query feature with
  | Throw e => (d, Rejected (thrown e))
  | Normal None => (d, Resolved [])
  | Normal (Some (fieldName, sentence, values)) =>
      let '(d', result) := poolQuery d sentence values in
      match result with
      | QueryFailed error => (d', Rejected error)
      | QueryRows rows =>
          match mapM (fun r => Get (VObject r) fieldName) rows with
          | Normal values => (d', Resolved values)
          | Throw e => (d', Unsettled)
          end
      end
  end.

End Database.

(** ** Tables, credentials, projections and instances *)

(** The cast [<FeatureType>f.type.toLowerCase()].  The schema of
    [config.ts] admits the five names only; any other would reach the
    [default:] case of [turnInto], as [text] does. *)
Definition asFeatureType (name : string) : FeatureType :=
  if String.eqb name "nominal" then nominal
  else if String.eqb name "numeric" then numeric
  else if String.eqb name "logic" then logic
  else if String.eqb name "date" then date
  else text.

(** [t.fields.map((f, i) => ...)], [i] being the position of [f]. *)
Fixpoint indexedFields (i : nat) (fs : list FieldConfig.t) : list Feature.t :=
  match fs with
  | [] => []
  | f :: fs' =>
      Feature.mk i (asFeatureType (toLowerCase (FieldConfig.type f)))
        (FieldConfig.name f)
      :: indexedFields (S i) fs'
  end.

(** The table the constructor of [DataSource] builds from one mapping. *)
Definition newTable (c : Config.DataSourceTableConfig) : DataSourceTable :=
  mkTable (Config.table c) (Config.publicKey c) (Config.secretKey c)
    (indexedFields 0 (Config.fields c)) 0 [] false.

Definition newTables (tablesConfig : list Config.DataSourceTableConfig)
  : list DataSourceTable :=
  map newTable tablesConfig.

(** [getTableFromCredentials]: the first table both keys compare equal to,
    [None] for [null]. *)
Fixpoint getTableFromCredentials (tables : list DataSourceTable)
  (pubkey secKey : string) : option DataSourceTable :=
  match tables with
  | [] => None
  | t :: rest =>
      if Text.secureStringCompare pubkey (publicKey t)
         && Text.secureStringCompare secKey (secretKey t)
      then Some t
      else getTableFromCredentials rest pubkey secKey
  end.

Definition sanitizeProjection (t : DataSourceTable) (projection : string)
  : list float :=
  if negb (truthy projection) then []
  else
    filter (fun a =>
              if isNaN a || PrimFloat.ltb a 0 then false
              else match array_get (fields t) a with
                   | Some _ => true
                   | None => false
                   end)
      (map parseInt (split "," projection)).

Section Instances.
Variable rt : Runtime.
Variable Db : Type.
Variable poolQuery : Db -> string -> list value -> Db * QueryResult.

(** [sanitizeInstances]: [Object.create(null)] stands in for an element
    that is not an object.  An element that is an array or a date is read
    as [Get] reads it: a field is taken not to be named like an index or
    like a member of their prototypes. *)
Definition sanitizeInstances (t : DataSourceTable) (instances : value)
  : Completion (list Instance) :=
  match instances with
  | VArray items =>
      mapM (fun i =>
              let row :=
                if String.eqb (typeof i) "object" then i else VObject [] in
              mapM (fun feature =>
                      v <- Get row (Feature.name feature) ;;
                      turnInto rt v (Feature.type feature))
                (fields t))
        items
  | _ => Normal []
  end.

(** The statement of [countInstances]. *)
Definition countSentence (t : DataSourceTable) (filter : option QueryTree.t)
  : Completion (string * list value) :=
  let sentence :=
    "SELECT COUNT(*) AS " ++ DQ ++ "count" ++ DQ
      ++ " FROM " ++ DQ ++ table t ++ DQ in
  cond1 <- toSQLCondition rt (fields t) filter ;;
  if truthy (SQLCondition.sql cond1)
  then Normal (sentence ++ " WHERE " ++ SQLCondition.sql cond1,
               SQLCondition.params cond1)
  else Normal (sentence, []).



End Instances.

End Source.

(* ================================================================== *)
(** * [src/controllers/update.ts] *)
(* ================================================================== *)

Module UpdateController.
Import Js JsNotations DeepintSources Source.

(** What a handler reads of a request: the two credential headers, absent
    or a string, and the parsed body. *)
Record Request : Type := mkRequest {
  publicKeyHeader : option string;
  secretKeyHeader : option string;
  body : value
}.

(** [request.headers[name] + ""]. *)
Definition headerText (h : option string) : string :=
  match h with
  | Some s => s
  | None => "undefined"
  end.

(** [Controller.checkAuth]. *)
Definition checkAuth (tables : list DataSourceTable) (request : Request)
  : option DataSourceTable :=
  getTableFromCredentials tables (headerText (publicKeyHeader request))
    (headerText (secretKeyHeader request)).

(** The tables after the one [checkAuth] returned has become [t']: the
    handlers change that object in place. *)
Fixpoint store (tables : list DataSourceTable) (pubkey secKey : string)
  (t' : DataSourceTable) : list DataSourceTable :=
  match tables with
  | [] => []
  | t :: rest =>
      if Text.secureStringCompare pubkey (publicKey t)
         && Text.secureStringCompare secKey (secretKey t)
      then t' :: rest
      else t :: store rest pubkey secKey t'
  end.

Section Handlers.
Variable rt : Runtime.
Variable Db : Type.
Variable poolQuery : Db -> string -> list value -> Db * QueryResult.

(** [POST /update/push]: the status answered, the database and the
    tables afterwards.  What the handler throws or rejects with reaches
    the error handler of [app.ts], which answers 500; [None] stands for a
    request that is never answered.  The handler is taken as one stretch:
    no other handler and no step of the worker in between. *)
Definition pushInstances (tables : list DataSourceTable)
  (request : Request) (d : Db)
  : option nat * Db * list DataSourceTable :=
  let pubkey := headerText (publicKeyHeader request) in
  let secKey := headerText (secretKeyHeader request) in
  match checkAuth tables request with
  | None => (Some 401, d, tables)
  | Some t =>
      let instances := if ToBoolean (body request) then body request
                       else VArray [] in
      match sanitizeInstances rt t instances with
      | Throw _ => (Some 500, d, tables)
      | Normal instances =>
          match Source.pushInstances Db poolQuery t instances d with
          | (d', t', Resolved _) =>
              (Some 200, d', store tables pubkey secKey (Source.noticeUpdate t'))
          | (d', t', Rejected _) =>
              (Some 500, d', store tables pubkey secKey t')
          | (d', t', Unsettled) => (None, d', store tables pubkey secKey t')
          end
      end
  end.

(** [POST /update/notice]. *)
Definition noticeUpdate (tables : list DataSourceTable) (request : Request)
  : nat * list DataSourceTable :=
  let pubkey := headerText (publicKeyHeader request) in
  let secKey := headerText (secretKeyHeader request) in
  match checkAuth tables request with
  | None => (401, tables)
  | Some t => (200, store tables pubkey secKey (Source.noticeUpdate t))
  end.

End Handlers.

End UpdateController.

(* ================================================================== *)
(** * [src/crash-guard.ts] *)
(* ================================================================== *)

Module CrashGuard.

(** How one call of [func] ends: its promise fulfils, its promise
    rejects, or the call itself throws. *)
Inductive Attempt : Type :=
| Fulfils
| Rejects (ex : string)
| Throws (ex : string).

Inductive Effect : Type :=
| Call
| ConsoleError (ex : string)
| SetTimeout (delay : float)
| Callback.

(** [tryFunc], along the outcomes of the successive calls of [func];
    nothing is known past the last of them. *)
Fixpoint tryFunc (attempts : list Attempt) (delay : float) : list Effect :=
  match attempts with
  | [] => []
  | Fulfils :: _ => [Call; Callback]
  | Rejects ex :: rest | Throws ex :: rest =>
      Call :: ConsoleError ex :: SetTimeout delay :: tryFunc rest delay
  end.

(** What a failed call hands to [console.error]. *)
Definition reason (a : Attempt) : string :=
  match a with
  | Rejects ex | Throws ex => ex
  | Fulfils => EmptyString
  end.

(** [delay || 5000] for an optional number. *)
Definition delayOrDefault (delay : option float) : float :=
  match delay with
  | Some d => if Js.ToBoolean (Js.VNumber d) then d else 5000%float
  | None => 5000%float
  end.

(** [runUntilSuccess]: the effects, and whether the promise resolved. *)
Definition runUntilSuccess (attempts : list Attempt) (delay : option float)
  : list Effect * bool :=
  let effects := tryFunc attempts (delayOrDefault delay) in
  (effects,
   existsb (fun e => match e with Callback => true | _ => false end) effects).

End CrashGuard.

(* ================================================================== *)
(** * Notions the properties are stated with *)
(* ================================================================== *)

(** ** The shape of a filter tree *)

Module Shape.

(** The greatest depth of a node, the root being at depth 0 as in the
    [depth] argument of [sanitizeQueryTree]. *)
Fixpoint height (q : QueryTree.t) : nat :=
  let 'QueryTree.mk _ _ _ _ children := q in
  fold_right (fun child h => Nat.max (S (height child)) h) 0 children.

(** Every node has at most [n] children. *)
Fixpoint fanout (n : nat) (q : QueryTree.t) : bool :=
  let 'QueryTree.mk _ _ _ _ children := q in
  (List.length children <=? n)%nat && forallb (fanout n) children.

(** No array holds a [null] and no object has a [toString] of its own, at
    any depth. *)
Fixpoint tame (v : Js.value) : bool :=
  match v with
  | Js.VArray items =>
      forallb (fun x => match x with Js.VNull => false | _ => tame x end) items
  | Js.VObject props =>
      match Js.lookup "toString" props with Some _ => false | None => true end
      && forallb (fun kv => tame (snd kv)) props
  | _ => true
  end.

End Shape.

(** ** Placeholders and the parameters they bind *)

Module Placeholders.
Import Js JsNotations DeepintSources.

(** A fragment in which every placeholder carries the parameter bound to
    it. *)
Inductive Piece : Type :=
| Text (c : ascii)
| Slot (bound : value).

Definition text (s : string) : list Piece :=
  map Text (list_ascii_of_string s).

(** The fragment as sent: each slot is a [?]. *)
Fixpoint render (pieces : list Piece) : string :=
  match pieces with
  | [] => EmptyString
  | Text c :: rest => String c (render rest)
  | Slot _ :: rest => String "?" (render rest)
  end.

(** The parameters of the slots, left to right. *)
Fixpoint slots (pieces : list Piece) : list value :=
  match pieces with
  | [] => []
  | Text _ :: rest => slots rest
  | Slot v :: rest => v :: slots rest
  end.

(** The number of [?] in a fragment. *)
Fixpoint placeholders (sql : string) : nat :=
  match sql with
  | EmptyString => 0
  | String c rest =>
      (if Ascii.eqb c "?" then 1 else 0) + placeholders rest
  end.

(** Positional binding, as the driver does it: the k-th [?] takes the
    k-th parameter.  [None] when the two run out at different times. *)
Fixpoint bindPlaceholders (sql : string) (params : list value)
  : option (list Piece) :=
  match sql with
  | EmptyString =>
      match params with [] => Some [] | _ :: _ => None end
  | String c rest =>
      if Ascii.eqb c "?" then
        match params with
        | [] => None
        | p :: params' =>
            option_map (cons (Slot p)) (bindPlaceholders rest params')
        end
      else option_map (cons (Text c)) (bindPlaceholders rest params)
  end.

(** A leaf writes one comparison: the parameter it computed belongs to
    the first [?] of its fragment. *)
Fixpoint fillFirst (p : value) (sql : string) : list Piece :=
  match sql with
  | EmptyString => []
  | String c rest =>
      if Ascii.eqb c "?" then Slot p :: text rest
      else Text c :: fillFirst p rest
  end.

Definition leafPieces (cond : SQLCondition.t) : list Piece :=
  match SQLCondition.params cond with
  | [] => text (SQLCondition.sql cond)
  | p :: _ => fillFirst p (SQLCondition.sql cond)
  end.

(** A composite node joins the fragments of its children, each with the
    parameters it bound itself. *)
Definition joinPieces (sep : string) (st : list Piece * bool)
  (sub : list Piece) : list Piece * bool :=
  let '(pieces, fistQuery) := st in
  match sub with
  | [] => st
  | _ :: _ =>
      ((if fistQuery then pieces ++ text "(" ++ sub ++ text ")"
        else pieces ++ text sep ++ sub ++ text ")")%list,
       false)
  end.

Section Bound.
Variable rt : Runtime.
Variable features : list Feature.t.

Fixpoint boundNode (query : QueryTree.t) : Completion (list Piece) :=
  let 'QueryTree.mk type _ _ _ children := query in
  let joined (sep : string) : Completion (list Piece * bool) :=
    forOf (fun st child =>
             sub <- boundNode child ;;
             Normal (joinPieces sep st sub))
      children ([], true) in
  if String.eqb type "anyof" then
    st <- joined " OR (" ;; Normal (fst st)
  else if String.eqb type "allof" then
    st <- joined " AND (" ;; Normal (fst st)
  else if String.eqb type "not" then
    st <- joined " OR (" ;;
    Normal (match fst st with
            | [] => []
            | _ :: _ => text "NOT( " ++ fst st ++ text " )"
            end)%list
  else
    cond <- leafCondition rt features query ;;
    Normal (leafPieces cond).

Definition boundCondition (query : option QueryTree.t)
  : Completion (list Piece) :=
  match query with
  | None => Normal []
  | Some q => boundNode q
  end.

End Bound.

(** No piece of text is a [?]: every [?] of the fragment is a slot. *)
Definition clean (pieces : list Piece) : Prop :=
  Forall (fun p => p <> Text "?") pieces.

(** A condition and an annotated fragment say the same thing: same text,
    same parameters in the same order, and every [?] of the text is a
    slot. *)
Definition Agree (cond : SQLCondition.t) (pieces : list Piece) : Prop :=
  render pieces = SQLCondition.sql cond
  /\ slots pieces = SQLCondition.params cond
  /\ clean pieces.

Definition StateAgree (st : JoinState) (pst : list Piece * bool) : Prop :=
  let '(sql, fistQuery, params) := st in
  render (fst pst) = sql
  /\ slots (fst pst) = params
  /\ clean (fst pst)
  /\ snd pst = fistQuery.

End Placeholders.

(** ** What the match operations ask for *)

Module Matching.

(** [literal] is a prefix of [subject]. *)
Fixpoint startsWith (literal subject : string) : bool :=
  match literal, subject with
  | EmptyString, _ => true
  | String _ _, EmptyString => false
  | String a literal', String b subject' =>
      Ascii.eqb b a && startsWith literal' subject'
  end.

(** [literal] is a suffix of [subject]. *)
Fixpoint endsWith (literal subject : string) : bool :=
  String.eqb subject literal
  || match subject with
     | EmptyString => false
     | String _ subject' => endsWith literal subject'
     end.

(** [literal] occurs in [subject]. *)
Fixpoint contains (literal subject : string) : bool :=
  startsWith literal subject
  || match subject with
     | EmptyString => false
     | String _ subject' => contains literal subject'
     end.

(** A prefix match that ignores case. *)
Definition startsWithCI (literal subject : string) : bool :=
  startsWith (Js.toLowerCase literal) (Js.toLowerCase subject).

(** No backslash occurs in the text. *)
Fixpoint plain (s : string) : bool :=
  match s with
  | EmptyString => true
  | String c s' => negb (Ascii.eqb c "\") && plain s'
  end.

End Matching.

(** ** What a sanitized filter looks like *)

Module NormalForm.
Import Js DeepintSources.

(** Every node has a known type, a known operation or none, a literal of
    at most 1024 characters, and children only under a composite type. *)
Fixpoint wellFormed (q : QueryTree.t) : bool :=
  let 'QueryTree.mk type operation _ rhs children := q in
  includes NODE_TYPES type
  && (includes OPERATIONS operation || String.eqb operation EmptyString)
  && match rhs with
     | Some r => (String.length r <=? 1024)%nat
     | None => true
     end
  && (isComposite type || match children with [] => true | _ :: _ => false end)
  && forallb wellFormed children.

(** Every [left] is a number [Math.floor] leaves as it is. *)
Fixpoint integral (q : QueryTree.t) : Prop :=
  let 'QueryTree.mk _ _ lhs _ children := q in
  Math_floor lhs = lhs
  /\ fold_right (fun child rest => integral child /\ rest) True children.

(** The object a [QueryTree] is when it arrives as a filter. *)
Fixpoint toValue (q : QueryTree.t) : value :=
  let 'QueryTree.mk type operation lhs rhs children := q in
  VObject [("type", VString type);
           ("operation", VString operation);
           ("left", VNumber lhs);
           ("right", match rhs with Some r => VString r | None => VNull end);
           ("children", VArray (map toValue children))].

(** The filter with every literal emptied; a [null] literal stays. *)
Fixpoint eraseLiterals (q : QueryTree.t) : QueryTree.t :=
  let 'QueryTree.mk type operation lhs rhs children := q in
  QueryTree.mk type operation lhs
    (match rhs with Some _ => Some EmptyString | None => None end)
    (map eraseLiterals children).

End NormalForm.

(** ** The values of a field type *)

Module Typing.
Import Js.

(** [null], or a value of the kind the field type stands for: a string
    (of at most 255 characters when nominal), a number other than [NaN],
    a boolean, a valid date. *)
Definition hasType (v : value) (T : FeatureType) : bool :=
  match v, T with
  | VNull, _ => true
  | VString s, nominal => (String.length s <=? 255)%nat
  | VString _, text => true
  | VNumber n, numeric => negb (isNaN n)
  | VBool _, logic => true
  | VDate (Some _), date => true
  | _, _ => false
  end.

End Typing.

(** ** Numbered placeholders *)

Module Numbering.

(** One pass over a template: the placeholders become [$i], [$(i+1)], ...
    from left to right, and nothing else changes. *)
Fixpoint numberFrom (i : Z) (template : string) : string :=
  match template with
  | EmptyString => EmptyString
  | String c rest =>
      if Ascii.eqb c "?" then ("$" ++ Js.decimal i) ++ numberFrom (i + 1) rest
      else String c (numberFrom i rest)
  end.

(** [$i, $(i+1), ...], [n] of them, separated by commas. *)
Fixpoint dollars (i : Z) (n : nat) : list string :=
  match n with
  | O => []
  | S n' => ("$" ++ Js.decimal i) :: dollars (i + 1) n'
  end.

End Numbering.

(** ** Reading UTF-8 back *)

Module Utf8.

(** The first character of a buffer [Text.utf8] wrote, and the rest. *)
Definition decodeFirst (bytes : list Byte.byte)
  : option (ascii * list Byte.byte) :=
  match bytes with
  | [] => None
  | b :: rest =>
      let n := nat_of_ascii (ascii_of_byte b) in
      if (n <? 128)%nat then Some (ascii_of_byte b, rest)
      else
        match rest with
        | [] => None
        | b' :: rest' =>
            let n' := nat_of_ascii (ascii_of_byte b') in
            Some (ascii_of_nat ((n - 192) * 64 + (n' - 128)), rest')
        end
  end.

End Utf8.

(** ** What a query delivers *)

Module Stream.
Import Source.


(** The batches posted to the platform, in order. *)
Fixpoint posted (effects : list Effect) : list (list Instance) :=
  match effects with
  | [] => []
  | Post _ _ instances :: rest => instances :: posted rest
  | _ :: rest => posted rest
  end.

End Stream.

(* ================================================================== *)
(** * Inputs the examples are evaluated on *)
(* ================================================================== *)

Module Examples.
Import Js Source.

(** The source of the specification's end-to-end scenario. *)
Definition fields : list Feature.t :=
  [Feature.mk 0 numeric "a"; Feature.mk 1 nominal "b"].

Definition source : DataSourceTable :=
  mkTable "readings" "public" "secret" fields 0 [] false.

Definition leaf (operation : string) (field : float) (literal : value)
  : value :=
  VObject [("type", VString "single"); ("operation", VString operation);
           ("left", VNumber field); ("right", literal)].

(** [a = 5 AND LOWER(b) LIKE LOWER('x%')], with a [null] comparison that
    is dropped. *)
Definition filterJson : value :=
  VObject [("type", VString "allof");
           ("children",
            VArray [leaf "eq" 0 (VString "5");
                    leaf "swi" 1 (VString "x");
                    leaf "gt" 0 VNull])].

Definition filter : option QueryTree.t :=
  Some (QueryTree.mk "allof" EmptyString (-1)%float (Some "undefined")
          [QueryTree.mk "single" "eq" 0%float (Some "5") [];
           QueryTree.mk "single" "swi" 1%float (Some "x") [];
           QueryTree.mk "single" "gt" 0%float None []]).

(** Two instances of that source, and the source with both queued and one
    permit on its semaphore. *)
Definition batch : list Instance :=
  [[VNumber 5; VString "x"]; [VNumber 6; VString "y"]].

Definition queued : DataSourceTable :=
  mkTable "readings" "public" "secret" fields 1 batch false.

(** A comparison against a [null] literal. *)
Definition nullComparison : QueryTree.t :=
  QueryTree.mk "single" "gt" 0%float None [].

(** Two ways a forward attempt fails. *)
Definition failures : list Response :=
  [TransportError "ECONNREFUSED"; Status 503].

(** A source with one nominal field. *)
Definition flowers : DataSourceTable :=
  mkTable "iris" "public" "secret" [Feature.mk 0 nominal "species"]
    0 [] false.

End Examples.

(** Inputs for the properties of the handlers, the executor and the
    retry guard. *)

Module Samples.
Import Js Source.

(** The tree of [Examples.filter]. *)
Definition tree : QueryTree.t :=
  QueryTree.mk "allof" EmptyString (-1)%float (Some "undefined")
    [QueryTree.mk "single" "eq" 0%float (Some "5") [];
     QueryTree.mk "single" "swi" 1%float (Some "x") [];
     QueryTree.mk "single" "gt" 0%float None []].

(** The mapping [Examples.source] is built from. *)
Definition config : Config.DataSourceTableConfig :=
  Config.mkTableConfig "readings" "public" "secret"
    [FieldConfig.mk "NUMERIC" "a"; FieldConfig.mk "NOMINAL" "b"] None.

(** The body of a push of one instance, and what is made of it. *)
Definition body : value :=
  VArray [VObject [("a", VString "5"); ("b", VString "x")]].

Definition instances : list Instance := [[VNumber 5; VString "x"]].





(** One batch of one row of [Examples.source]. *)
Definition rows : list (list Row) :=
  [[[("a", VNumber 5); ("b", VString "x")]]].

(** Two failed calls, one rejected and one thrown. *)
Definition attempts : list CrashGuard.Attempt :=
  [CrashGuard.Rejects "ECONNREFUSED"; CrashGuard.Throws "TypeError"].

(** A text field, and a literal with a wildcard in it. *)
Definition notes : Feature.t := Feature.mk 0 text "notes".

End Samples.

(* ================================================================== *)
(** * The model on concrete inputs *)
(* ================================================================== *)

Module Evaluation.
Import Js JsNotations DeepintSources Source.

Example floor_of_a_fraction :
  Math_floor 2.5%float = 2%float /\ Math_floor (-0.5)%float = (-1)%float.
Proof. split; reflexivity. Qed.

Example index_must_be_an_integer :
  array_get Examples.fields 1%float = Some (Feature.mk 1 nominal "b")
  /\ array_get Examples.fields 1.5%float = None
  /\ array_get Examples.fields (-1)%float = None
  /\ array_get Examples.fields 2%float = None.
Proof. repeat split. Qed.

Example array_to_string :
  ToString SmallRuntime.runtime
    (VArray [VNumber 1; VNull; VString "a"; VArray [VBool true; VNumber 0]])
  = Normal "1,,a,true,0".
Proof. reflexivity. Qed.

Example coerce_numeric :
  turnInto SmallRuntime.runtime (VString "5") numeric = Normal (VNumber 5)
  /\ turnInto SmallRuntime.runtime (VString "five") numeric = Normal VNull.
Proof. split; reflexivity. Qed.

Example coerce_logic :
  turnInto SmallRuntime.runtime (VString "0") logic = Normal (VBool false)
  /\ turnInto SmallRuntime.runtime (VString "no") logic = Normal (VBool true)
  /\ turnInto SmallRuntime.runtime (VNumber 0) logic = Normal (VBool false).
Proof. repeat split. Qed.

Example coerce_date_fallback :
  turnInto SmallRuntime.runtime (VString "yesterday") date
  = Normal (VDate (Some 0%Z)).
Proof. reflexivity. Qed.

Example sanitize_example :
  sanitizeFilter SmallRuntime.runtime Examples.filterJson
  = Normal Examples.filter.
Proof. reflexivity. Qed.

Example compile_example :
  toSQLCondition SmallRuntime.runtime Examples.fields Examples.filter
  = Normal (SQLCondition.mk
              ("(" ++ DQ ++ "a" ++ DQ ++ " = ?) AND (LOWER("
                 ++ DQ ++ "b" ++ DQ ++ ") LIKE LOWER(?))")
              [VNumber 5; VString "x%"]).
Proof. reflexivity. Qed.

Example escape_example : replaceWildcards "50%_off" = "50\%\_off".
Proof. reflexivity. Qed.

Example template_example :
  Text.toPostgresTemplate "VALUES (?,?,?)" = "VALUES ($1,$2,$3)".
Proof. reflexivity. Qed.

Example like_example :
  Postgres.like "50\%%" "50% off" = true
  /\ Postgres.like "50\%%" "500 off" = false
  /\ Postgres.like "a_c" "abc" = true.
Proof. repeat split. Qed.

(** Two instances are pushed, the source is noticed, and the platform
    answers 503 and then 200: the batch is posted twice, unchanged. *)
Example worker_example :
  run false false (Acquiring, Examples.source)
    [Enqueue [VNumber 5; VString "x"]; Enqueue [VNumber 6; VString "y"];
     Notice; Wake Acquired; Wake (Responded (Status 503)); Wake TimerFired;
     Wake (Responded (Status 200))]
  = ((Acquiring,
      mkTable "readings" "public" "secret" Examples.fields 0 [] false),
     [Post "public" "secret" Examples.batch;
      ConsoleError "Status code: 503"; SetTimeout 5000;
      Post "public" "secret" Examples.batch]).
Proof. reflexivity. Qed.

End Evaluation.

(* ================================================================== *)
(** * Type coercion *)
(* ================================================================== *)

Module CoercionFacts.
Import Js JsNotations DeepintSources.

Lemma substr0_idempotent (n : nat) (s : string) :
  substr0 n (substr0 n s) = substr0 n s.
Proof.
  unfold substr0. revert s.
  induction n as [|n IH]; intros [|c s]; simpl; try reflexivity.
  now rewrite IH.
Qed.

Section WithRuntime.
Variable rt : Runtime.


Lemma ToString_scalar (v : value) :
  scalar v = true -> exists s, ToString rt v = Normal s.
Proof.
  destruct v as [| |b|n|s|[t|]|items|props]; simpl; intros H;
    try discriminate; eexists; reflexivity.
Qed.

Lemma turnInto_scalar (x : value) (T : FeatureType) (v : value) :
  turnInto rt x T = Normal v -> scalar v = true.
Proof.
  unfold turnInto, tryCatch.
  destruct x; try (intros [= <-]; reflexivity); destruct T;
    try match goal with
      | |- context [ToString rt ?d] => destruct (ToString rt d)
      | |- context [ToNumber rt ?d] =>
          destruct (ToNumber rt d) as [n|]; [simpl; destruct (isNaN n)|]
      | |- context [Date_new rt ?d] => destruct (Date_new rt d) as [[t|]|]
      end; simpl;
    repeat match goal with
      | |- context [if ?c then _ else _] => destruct c
      end;
    try (intros [= <-]; reflexivity); try discriminate.
Qed.

Lemma turnInto_string_returns (s : string) (T : FeatureType) :
  exists v, turnInto rt (VString s) T = Normal v.
Proof.
  unfold turnInto, tryCatch. destruct T; simpl;
    try match goal with
      | |- context [isNaN ?n] => destruct (isNaN n)
      | |- context [dateParse rt ?d] => destruct (dateParse rt d)
      end; simpl;
    repeat match goal with
      | |- context [if ?c then _ else _] => destruct c
      end; eexists; reflexivity.
Qed.

End WithRuntime.
End CoercionFacts.

Module Coercion.
Import Js JsNotations DeepintSources.

(** C9.  Coercion is idempotent: for every raw value [x] and every field
    type [T], coercing the result of [turnInto x T] to [T] again gives the
    same value; where the first coercion throws, so does the composition. *)
Theorem turnInto_idempotent (rt : Runtime) (x : value) (T : FeatureType) :
  (v <- turnInto rt x T ;; turnInto rt v T) = turnInto rt x T.
Proof.
  destruct T.
  - (* nominal *)
    destruct x; try reflexivity; unfold turnInto;
      match goal with
      | |- context [ToString rt ?d] => destruct (ToString rt d) as [str|e]
      end; simpl; try reflexivity;
      now rewrite CoercionFacts.substr0_idempotent.
  - (* text *)
    destruct x; try reflexivity; unfold turnInto;
      match goal with
      | |- context [ToString rt ?d] => destruct (ToString rt d) as [str|e]
      end; reflexivity.
  - (* numeric *)
    destruct x; try reflexivity; unfold turnInto;
      match goal with
      | |- context [ToNumber rt ?d] => destruct (ToNumber rt d) as [num|e]
      end; simpl; try reflexivity;
      destruct (isNaN num) eqn:E; simpl; try reflexivity; now rewrite E.
  - (* logic *)
    destruct x; try reflexivity; unfold turnInto;
      repeat match goal with
        | |- context [if ?c then _ else _] => destruct c; simpl
        end; reflexivity.
  - (* date *)
    destruct x; try reflexivity; unfold turnInto, tryCatch;
      match goal with
      | |- context [Date_new rt ?d] => destruct (Date_new rt d) as [[t|]|e]
      end; reflexivity.
Qed.

End Coercion.

(* ================================================================== *)
(** * Sanitizing a filter *)
(* ================================================================== *)

Module Sanitize.
Import Js JsNotations DeepintSources Shape.

Lemma mapM_Forall2 {A B : Type} (f : A -> Completion B) (xs : list A)
  (ys : list B) :
  mapM f xs = Normal ys -> Forall2 (fun x y => f x = Normal y) xs ys.
Proof.
  revert ys. induction xs as [|x xs IH]; simpl; intros ys H.
  - injection H as <-. constructor.
  - destruct (f x) as [y|e] eqn:Ex; [simpl in H|discriminate H].
    destruct (mapM f xs) as [ys'|e] eqn:Exs; [simpl in H|discriminate H].
    injection H as <-. constructor; auto.
Qed.

Lemma height_node (ty op : string) (l : float) (r : option string)
  (cs : list QueryTree.t) (n : nat) :
  Forall (fun c => height c <= n) cs ->
  height (QueryTree.mk ty op l r cs) <= (match cs with [] => 0 | _ => S n end).
Proof.
  intros H. simpl.
  assert (G : fold_right (fun child h => Nat.max (S (height child)) h) 0 cs
              <= match cs with [] => 0 | _ => S n end).
  { induction H as [|c cs Hc Hcs IH]; cbn [fold_right]; [lia|].
    destruct cs; cbn [fold_right] in *; lia. }
  exact G.
Qed.

Lemma levels_step (depth : nat) :
  QUERY_TREE_MAX_DEPH - depth =
  if (depth <? QUERY_TREE_MAX_DEPH)%nat
  then S (QUERY_TREE_MAX_DEPH - (depth + 1))
  else 0.
Proof.
  unfold QUERY_TREE_MAX_DEPH.
  destruct (Nat.ltb_spec depth 4); lia.
Qed.

Ltac bind_inv H :=
  match type of H with
  | bind ?c _ = Normal _ =>
      let E := fresh "E" in
      destruct c eqn:E; [cbn [bind] in H | discriminate H]
  end.

Section WithRuntime.
Variable rt : Runtime.

(** The children of a sanitized node: none, or the sanitized images of the
    first [QUERY_TREE_MAX_CHILDREN] children of a composite node, one level
    down. *)
Lemma sanitizeLevels_children (levels : nat) (tree : value) (q : QueryTree.t) :
  sanitizeLevels rt levels tree = Normal q ->
  QueryTree.children q = []
  \/ exists levels' items,
       levels = S levels'
       /\ Get tree "children" = Normal (VArray items)
       /\ isComposite (QueryTree.type q) = true
       /\ Forall2 (fun item child => sanitizeLevels rt levels' item = Normal child)
            (firstn QUERY_TREE_MAX_CHILDREN items) (QueryTree.children q).
Proof.
  intros H. destruct levels as [|levels']; cbn [sanitizeLevels] in H;
    (destruct (String.eqb (typeof tree) "object");
     [|injection H as <-; left; reflexivity]);
    repeat bind_inv H; injection H as <-;
    cbn [QueryTree.children QueryTree.type].
  - left. congruence.
  - match goal with
    | E : match ?b with true => _ | false => _ end = Normal ?cs |- _ =>
        destruct b eqn:Eb;
        [|injection E as <-; left; reflexivity]
    end.
    match goal with
    | E : match ?v with VArray _ => _ | _ => _ end = Normal ?cs |- _ =>
        destruct v eqn:Ev; try (injection E as <-; left; reflexivity)
    end.
    right. eexists _, _. repeat split; eauto using mapM_Forall2.
Qed.

(** Whatever [sanitizeQueryTree] returns has no node deeper than the
    levels allowed and no node with more than [QUERY_TREE_MAX_CHILDREN]
    children. *)
Lemma sanitizeLevels_shape (levels : nat) :
  forall (tree : value) (q : QueryTree.t),
    sanitizeLevels rt levels tree = Normal q ->
    height q <= levels /\ fanout QUERY_TREE_MAX_CHILDREN q = true.
Proof.
  induction levels as [|levels' IH]; intros tree q H;
    destruct (sanitizeLevels_children _ _ _ H) as [E | (l' & items & El & _ & _ & F)];
    destruct q as [ty op l r cs]; cbn [QueryTree.children] in *.
  - subst cs. split; [simpl; lia | reflexivity].
  - discriminate El.
  - subst cs. split; [simpl; lia | reflexivity].
  - injection El as <-.
    assert (Hall : Forall (fun c => height c <= levels'
                                    /\ fanout QUERY_TREE_MAX_CHILDREN c = true) cs).
    { clear H. induction F as [|item c items' cs' Hc _ IHF]; constructor; eauto. }
    assert (Hlen : List.length cs <= QUERY_TREE_MAX_CHILDREN).
    { rewrite <- (Forall2_length F). apply firstn_le_length. }
    split.
    + pose proof (height_node ty op l r cs levels') as Hh.
      assert (Hcs : Forall (fun c => height c <= levels') cs)
        by (eapply Forall_impl; [|exact Hall]; simpl; tauto).
      specialize (Hh Hcs). destruct cs; lia.
    + simpl. apply andb_true_intro. split.
      * now apply Nat.leb_le.
      * apply forallb_forall. intros c Hin.
        rewrite Forall_forall in Hall. now apply Hall.
Qed.

Lemma sanitizeQueryTree_shape (tree : value) (depth : nat) (q : QueryTree.t) :
  sanitizeQueryTree rt tree depth = Normal q ->
  height q <= QUERY_TREE_MAX_DEPH - depth
  /\ fanout QUERY_TREE_MAX_CHILDREN q = true.
Proof. apply sanitizeLevels_shape. Qed.

(** A value that is not an object is replaced by the blank tree. *)
Lemma sanitizeQueryTree_not_object (tree : value) (depth : nat) :
  String.eqb (typeof tree) "object" = false ->
  sanitizeQueryTree rt tree depth = Normal blankTree.
Proof.
  intros H. unfold sanitizeQueryTree.
  destruct (QUERY_TREE_MAX_DEPH - depth); simpl; now rewrite H.
Qed.

End WithRuntime.

Lemma value_induction (P : value -> Prop) :
  P VUndefined -> P VNull -> (forall b, P (VBool b)) ->
  (forall n, P (VNumber n)) -> (forall s, P (VString s)) ->
  (forall tv, P (VDate tv)) ->
  (forall items, Forall P items -> P (VArray items)) ->
  (forall props, Forall (fun kv => P (snd kv)) props -> P (VObject props)) ->
  forall v, P v.
Proof.
  intros Hu Hn Hb Hnum Hs Hd Ha Ho.
  fix IH 1. intros [| |b|n|s|tv|items|props].
  - exact Hu.
  - exact Hn.
  - apply Hb.
  - apply Hnum.
  - apply Hs.
  - apply Hd.
  - apply Ha. induction items as [|x items IHitems]; constructor;
      [apply IH | exact IHitems].
  - apply Ho. induction props as [|[k x] props IHprops]; constructor;
      [apply IH | exact IHprops].
Qed.

Lemma mapM_returns {A B : Type} (f : A -> Completion B) (xs : list A) :
  Forall (fun x => exists y, f x = Normal y) xs ->
  exists ys, mapM f xs = Normal ys.
Proof.
  induction 1 as [|x xs [y Hy] _ [ys Hys]]; cbn [mapM].
  - eexists; reflexivity.
  - rewrite Hy. cbn [bind]. rewrite Hys. eexists; reflexivity.
Qed.

Lemma In_firstn {A : Type} (n : nat) (xs : list A) (x : A) :
  In x (firstn n xs) -> In x xs.
Proof.
  revert xs. induction n as [|n IH]; intros [|y xs]; cbn [firstn In];
    try contradiction.
  intros [->|H]; [left; reflexivity | right; now apply IH].
Qed.

Lemma lookup_tame (name : string) (props : list (string * value)) (v : value) :
  forallb (fun kv => tame (snd kv)) props = true ->
  lookup name props = Some v -> tame v = true.
Proof.
  induction props as [|[k x] props IH]; cbn [lookup forallb]; [discriminate|].
  intros H. apply andb_true_iff in H as [Hx Hrest].
  destruct (String.eqb k name); [intros [= <-]; exact Hx | now apply IH].
Qed.

Section Returns.
Variable rt : Runtime.

Lemma ToString_tame (v : value) :
  tame v = true -> exists s, ToString rt v = Normal s.
Proof.
  induction v as [| |b|n|s|[t|]|items IH|props _] using value_induction;
    intros Ht; try (eexists; reflexivity).
  - cbn [ToString]. cbn [tame] in Ht.
    match goal with
    | |- exists s, ?join items true = Normal s =>
        enough (Hjoin : forall first, exists s, join items first = Normal s)
          by apply Hjoin
    end.
    induction IH as [|x items Hx _ IHitems]; intros first.
    + eexists; reflexivity.
    + cbn [forallb] in Ht. apply andb_true_iff in Ht as [Hhead Hrest].
      assert (Hs : exists s,
                 match x with
                 | VUndefined | VNull => Normal EmptyString
                 | _ => ToString rt x
                 end = Normal s).
      { destruct x; try (eexists; reflexivity); now apply Hx. }
      destruct Hs as [s ->]. cbn [bind].
      destruct (IHitems Hrest false) as [r ->]. eexists; reflexivity.
  - cbn [ToString]. cbn [tame] in Ht.
    destruct (lookup "toString" props); [discriminate|].
    eexists; reflexivity.
Qed.

(** What a read of a property of a tame node gives is tame. *)
Lemma Get_tame (tree : value) (name : string) :
  tame tree = true -> tree <> VNull -> String.eqb (typeof tree) "object" = true ->
  exists v, Get tree name = Normal v /\ tame v = true.
Proof.
  intros Ht Hn Ho.
  destruct tree as [| |b|n|s|tv|items|props]; try discriminate;
    try contradiction; try (exists VUndefined; split; reflexivity).
  cbn [Get]. cbn [tame] in Ht. apply andb_true_iff in Ht as [_ Hp].
  destruct (lookup name props) as [v|] eqn:E.
  - exists v. split; [reflexivity | eapply lookup_tame; eauto].
  - exists VUndefined. split; reflexivity.
Qed.

(** [sanitizeQueryTree] returns on every input in which no array holds a
    [null] and no object has a [toString] of its own. *)
Lemma sanitizeLevels_returns (levels : nat) :
  forall tree,
    tame tree = true -> tree <> VNull ->
    exists q, sanitizeLevels rt levels tree = Normal q.
Proof.
  induction levels as [|levels' IH]; intros tree Ht Hn;
    cbn [sanitizeLevels];
    (destruct (String.eqb (typeof tree) "object") eqn:Ho;
     [|eexists; reflexivity]);
    destruct (Get_tame tree "type" Ht Hn Ho) as (ty & Ety & Hty);
    destruct (Get_tame tree "operation" Ht Hn Ho) as (op & Eop & Hop);
    destruct (Get_tame tree "left" Ht Hn Ho) as (l & El & Hl);
    destruct (Get_tame tree "right" Ht Hn Ho) as (r & Er & Hr);
    destruct (Get_tame tree "children" Ht Hn Ho) as (cs & Ecs & Hcs);
    destruct (ToString_tame ty Hty) as [tyText EtyText];
    destruct (ToString_tame op Hop) as [opText EopText];
    assert (Hright : exists right,
               match r with
               | VNull => Normal None
               | _ =>
                   rightText <- ToString rt r ;;
                   Normal (Some (if (1024 <? String.length rightText)%nat
                                 then substr0 1024 rightText
                                 else rightText))
               end = Normal right)
      by (destruct (ToString_tame r Hr) as [rText HrText];
          destruct r; cbn [ToString] in *; try (eexists; reflexivity);
          rewrite HrText; eexists; reflexivity);
    destruct Hright as [right Eright];
    rewrite Ety; cbn [bind]; rewrite EtyText; cbn [bind];
    rewrite Eop; cbn [bind]; rewrite EopText; cbn [bind];
    rewrite El; cbn [bind]; rewrite Er; cbn [bind];
    rewrite Eright; cbn [bind]; rewrite Ecs; cbn [bind].
  - eexists; reflexivity.
  - destruct (isComposite _); [|eexists; reflexivity].
    destruct cs as [| | | | | |items|]; try (eexists; reflexivity).
    assert (Hitems : exists children,
               mapM (sanitizeLevels rt levels')
                 (firstn QUERY_TREE_MAX_CHILDREN items) = Normal children).
    { apply mapM_returns. apply Forall_forall. intros x Hin.
      apply In_firstn in Hin. cbn [tame] in Hcs.
      rewrite forallb_forall in Hcs. specialize (Hcs x Hin).
      apply IH; destruct x; congruence. }
    destruct Hitems as [children ->]. eexists; reflexivity.
Qed.

(** So does [sanitizeFilter]. *)
Lemma sanitizeFilter_returns (json : value) :
  tame json = true ->
  exists filter, Source.sanitizeFilter rt json = Normal filter.
Proof.
  intros Ht. unfold Source.sanitizeFilter.
  destruct (negb (ToBoolean json)) eqn:Eb; [eexists; reflexivity|].
  assert (Hn : json <> VNull) by (intros ->; discriminate Eb).
  destruct (sanitizeLevels_returns QUERY_TREE_MAX_DEPH json Ht Hn) as [q Hq].
  unfold sanitizeQueryTree. rewrite Nat.sub_0_r, Hq. eexists; reflexivity.
Qed.

End Returns.

(** C2.  [sanitizeQueryTree] does not return on every input: [null] where
    a node is expected passes the [typeof tree === "object"] test and the
    read of [tree.type] throws.  A filter with a [null] child reaches that
    through [sanitizeFilter]. *)
Theorem sanitizeQueryTree_null_child_throws (rt : Runtime) :
  Source.sanitizeFilter rt
    (VObject [("type", VString "anyof"); ("children", VArray [VNull])])
  = Throw TypeError
  /\ forall depth, sanitizeQueryTree rt VNull depth = Throw TypeError.
Proof.
  split; [reflexivity|].
  intros depth. unfold sanitizeQueryTree.
  destruct (QUERY_TREE_MAX_DEPH - depth); reflexivity.
Qed.

End Sanitize.

(* ================================================================== *)
(** * Compiling a filter *)
(* ================================================================== *)

Module Compile.
Import Js JsNotations DeepintSources Placeholders.

(** Induction on a filter tree, with the property known of the children. *)
Lemma QueryTree_induction (P : QueryTree.t -> Prop) :
  (forall ty op l r cs, Forall P cs -> P (QueryTree.mk ty op l r cs)) ->
  forall q, P q.
Proof.
  intros step.
  fix IH 1. intros [ty op l r cs]. apply step.
  induction cs as [|c cs IHcs]; constructor; [apply IH | exact IHcs].
Qed.

Lemma array_get_In {A : Type} (xs : list A) (n : float) (x : A) :
  array_get xs n = Some x -> In x xs.
Proof.
  unfold array_get.
  destruct (Prim2SF n) as [s|s| |[|] m e]; try discriminate.
  - apply nth_error_In.
  - destruct (0 <=? e)%Z.
    + destruct (_ <? _)%Z; [apply nth_error_In | discriminate].
    + destruct (_ =? _)%Z; [|discriminate].
      destruct (_ <? _)%Z; [apply nth_error_In | discriminate].
Qed.

(** *** Rendering and binding *)


Lemma placeholders_app (a b : string) :
  placeholders (a ++ b) = placeholders a + placeholders b.
Proof. induction a as [|c a IH]; simpl; [reflexivity | rewrite IH; lia]. Qed.

Lemma render_app (a b : list Piece) :
  render (a ++ b) = render a ++ render b.
Proof.
  induction a as [|[c|v] a IH]; simpl; [reflexivity | | ]; now rewrite IH.
Qed.

Lemma slots_app (a b : list Piece) :
  slots (a ++ b) = (slots a ++ slots b)%list.
Proof.
  induction a as [|[c|v] a IH]; simpl; [reflexivity | | ]; now rewrite IH.
Qed.

Lemma render_text (s : string) : render (text s) = s.
Proof.
  unfold text. induction s as [|c s IH]; simpl; [reflexivity | now rewrite IH].
Qed.

Lemma slots_text (s : string) : slots (text s) = [].
Proof.
  unfold text. induction s as [|c s IH]; simpl; [reflexivity | exact IH].
Qed.

Lemma clean_text (s : string) : placeholders s = 0 -> clean (text s).
Proof.
  unfold clean, text.
  induction s as [|c s IH]; simpl; intros H; [constructor|].
  destruct (Ascii.eqb_spec c "?") as [->|Hc]; [discriminate H|].
  constructor; [congruence | now apply IH].
Qed.

Lemma clean_app (a b : list Piece) : clean a -> clean b -> clean (a ++ b).
Proof. intros Ha Hb. apply Forall_app. split; assumption. Qed.

Lemma render_nil (pieces : list Piece) :
  render pieces = EmptyString -> pieces = [].
Proof. destruct pieces as [|[c|v] rest]; simpl; congruence. Qed.

(** In a clean fragment the placeholders are exactly the slots, so binding
    by position gives every slot its own parameter back. *)
Lemma bind_render (pieces : list Piece) :
  clean pieces ->
  placeholders (render pieces) = List.length (slots pieces)
  /\ bindPlaceholders (render pieces) (slots pieces) = Some pieces.
Proof.
  induction 1 as [|[c|v] rest Hp _ [IHn IHb]]; simpl.
  - split; reflexivity.
  - destruct (Ascii.eqb_spec c "?") as [->|Hc]; [congruence|].
    rewrite IHb. split; [exact IHn | reflexivity].
  - rewrite IHb, IHn. split; reflexivity.
Qed.

Lemma fillFirst_one (p : value) (sql : string) :
  placeholders sql = 1 ->
  render (fillFirst p sql) = sql
  /\ slots (fillFirst p sql) = [p]
  /\ clean (fillFirst p sql).
Proof.
  induction sql as [|c sql IH]; simpl; [discriminate|].
  destruct (Ascii.eqb_spec c "?") as [->|Hc]; simpl; intros H.
  - rewrite render_text, slots_text. repeat split.
    constructor; [discriminate | apply clean_text; lia].
  - destruct (IH H) as (Hr & Hs & Hc'). rewrite Hr, Hs. repeat split.
    constructor; [congruence | exact Hc'].
Qed.

(** *** The compiled condition and its annotated reading *)


Lemma Agree_binds (cond : SQLCondition.t) (pieces : list Piece) :
  Agree cond pieces ->
  placeholders (SQLCondition.sql cond) = List.length (SQLCondition.params cond)
  /\ bindPlaceholders (SQLCondition.sql cond) (SQLCondition.params cond)
     = Some pieces.
Proof.
  intros (Hr & Hs & Hc). rewrite <- Hr, <- Hs. now apply bind_render.
Qed.

Lemma Agree_empty : Agree emptyCondition [].
Proof. repeat split. constructor. Qed.

Lemma joinChild_agrees (sep : string) (st : JoinState)
  (pst : list Piece * bool) (cond : SQLCondition.t) (pieces : list Piece) :
  placeholders sep = 0 ->
  StateAgree st pst -> Agree cond pieces ->
  StateAgree (joinChild sep st cond) (joinPieces sep pst pieces).
Proof.
  intros Hsep Hst (Hr & Hs & Hc).
  destruct st as [[sql fistQuery] params], pst as [acc flag].
  destruct Hst as (Hsql & Hparams & Hclean & Hflag). cbn [fst snd] in *.
  subst flag.
  unfold joinChild, joinPieces, truthy. rewrite <- Hr.
  destruct pieces as [|p rest]; [simpl; repeat split; assumption|].
  assert (Hne : String.eqb (render (p :: rest)) EmptyString = false).
  { destruct p; reflexivity. }
  rewrite Hne. cbn [negb].
  remember (p :: rest) as sub eqn:Hsub. clear Hsub Hne p rest.
  assert (Hparen : forall s, placeholders s = 0 ->
            StateAgree (sql ++ s ++ render sub ++ ")", false,
                        (params ++ SQLCondition.params cond)%list)
              ((acc ++ text s ++ sub ++ text ")")%list, false)).
  { intros s Hs0. unfold StateAgree. cbn [fst snd].
    rewrite !render_app, !slots_app, !render_text, !slots_text.
    rewrite Hsql, Hparams, Hs. cbn [List.app]. rewrite app_nil_r.
    repeat split.
    repeat apply clean_app; auto using clean_text. }
  destruct fistQuery; [apply (Hparen "(") | apply (Hparen sep)];
    [reflexivity | exact Hsep].
Qed.

Section WithRuntime.
Variable rt : Runtime.
Variable features : list Feature.t.
Hypothesis names_clean :
  Forall (fun f => placeholders (Feature.name f) = 0) features.

Lemma leafCondition_counts (q : QueryTree.t) :
  exists cond,
    leafCondition rt features q = Normal cond
    /\ placeholders (SQLCondition.sql cond)
       = List.length (SQLCondition.params cond)
    /\ List.length (SQLCondition.params cond) <= 1.
Proof.
  unfold leafCondition.
  destruct (negb _ && _);
    [exists emptyCondition; repeat split; simpl; lia|].
  destruct (array_get features (QueryTree.left q)) as [feature|] eqn:Ef;
    [|exists emptyCondition; repeat split; simpl; lia].
  assert (Hname : placeholders (Feature.name feature) = 0).
  { rewrite Forall_forall in names_clean.
    apply names_clean. eapply array_get_In. exact Ef. }
  assert (Hcmp : exists cmp,
             turnInto rt
               match QueryTree.right q with
               | Some s => VString s
               | None => VNull
               end (Feature.type feature) = Normal cmp
             /\ exists lit, ToString rt cmp = Normal lit).
  { destruct (QueryTree.right q) as [s|].
    - destruct (CoercionFacts.turnInto_string_returns rt s (Feature.type feature))
        as [cmp Hcmp].
      exists cmp. split; [exact Hcmp|].
      apply CoercionFacts.ToString_scalar.
      eapply CoercionFacts.turnInto_scalar. exact Hcmp.
    - exists VNull. split; [reflexivity | exists "null"; reflexivity]. }
  destruct Hcmp as (cmp & -> & lit & Hlit). cbn [bind]. rewrite Hlit.
  cbn [bind].
  repeat match goal with
    | |- context [if ?b then _ else _] => destruct b
    end;
    eexists; (split; [reflexivity|]);
    cbn [SQLCondition.sql SQLCondition.params List.length emptyCondition];
    rewrite ?placeholders_app, ?Hname; simpl; lia.
Qed.

Lemma leafCondition_agrees (q : QueryTree.t) :
  exists cond,
    leafCondition rt features q = Normal cond /\ Agree cond (leafPieces cond).
Proof.
  destruct (leafCondition_counts q) as (cond & Hc & Hn & Hle).
  exists cond. split; [exact Hc|].
  unfold leafPieces, Agree.
  destruct cond as [sql [|p [|p' params]]]; simpl in *; try lia.
  - rewrite render_text, slots_text. auto using clean_text.
  - destruct (fillFirst_one p sql Hn) as (Hr & Hs & Hcl). auto.
Qed.

Lemma forOf_agrees (sep : string) (children : list QueryTree.t) :
  placeholders sep = 0 ->
  Forall (fun child =>
            exists cond pieces,
              compileNode rt features child = Normal cond
              /\ boundNode rt features child = Normal pieces
              /\ Agree cond pieces) children ->
  forall st pst, StateAgree st pst ->
  exists st' pst',
    forOf (fun st child =>
             subQ <- compileNode rt features child ;;
             Normal (joinChild sep st subQ)) children st = Normal st'
    /\ forOf (fun st child =>
                sub <- boundNode rt features child ;;
                Normal (joinPieces sep st sub)) children pst = Normal pst'
    /\ StateAgree st' pst'.
Proof.
  intros Hsep Hall.
  induction Hall as [|child rest (cond & pieces & Hc & Hb & Ha) _ IH];
    intros st pst Hst; cbn [forOf].
  - exists st, pst. auto.
  - rewrite Hc, Hb. cbn [bind].
    apply IH. now apply joinChild_agrees.
Qed.

(** Every typed tree compiles, and the compiled condition agrees with the
    annotated one. *)
Lemma compileNode_agrees (q : QueryTree.t) :
  exists cond pieces,
    compileNode rt features q = Normal cond
    /\ boundNode rt features q = Normal pieces
    /\ Agree cond pieces.
Proof.
  induction q as [ty op l r cs IH] using QueryTree_induction.
  cbn [compileNode boundNode].
  assert (Hinit : StateAgree (EmptyString, true, []) ([], true)).
  { repeat split. constructor. }
  destruct (String.eqb ty "anyof");
    [|destruct (String.eqb ty "allof"); [|destruct (String.eqb ty "not")]].
  - destruct (forOf_agrees " OR (" cs eq_refl IH _ _ Hinit)
      as ([[sql f] params] & [acc flag] & -> & -> & Hr & Hs & Hc & _).
    cbn [bind fst]. eexists _, _. repeat split; eauto.
  - destruct (forOf_agrees " AND (" cs eq_refl IH _ _ Hinit)
      as ([[sql f] params] & [acc flag] & -> & -> & Hr & Hs & Hc & _).
    cbn [bind fst]. eexists _, _. repeat split; eauto.
  - destruct (forOf_agrees " OR (" cs eq_refl IH _ _ Hinit)
      as ([[sql f] params] & [acc flag] & -> & -> & Hr & Hs & Hc & _).
    cbn [bind fst] in *. eexists _, _. split; [reflexivity|].
    split; [reflexivity|]. subst sql params. unfold Agree, truthy.
    cbn [SQLCondition.sql SQLCondition.params].
    destruct acc as [|p rest]; [repeat split; constructor|].
    assert (Hne : String.eqb (render (p :: rest)) EmptyString = false)
      by (destruct p; reflexivity).
    rewrite Hne. cbn [negb].
    remember (p :: rest) as sub eqn:Hsub. clear Hsub Hne p rest.
    rewrite !render_app, !slots_app, !render_text, !slots_text.
    cbn [List.app]. rewrite app_nil_r. repeat split.
    repeat apply clean_app; auto using clean_text.
  - destruct (leafCondition_agrees (QueryTree.mk ty op l r cs))
      as (cond & -> & Ha).
    cbn [bind]. eexists _, _. repeat split; apply Ha.
Qed.

End WithRuntime.

(** C1.  For every field list whose names hold no [?] and every filter
    that [sanitizeFilter] returns, [toSQLCondition] returns a condition
    whose text has as many [?] as it has parameters, and binding the
    parameters to the [?] by position gives each placeholder the parameter
    that the node which wrote it computed for it. *)
Theorem toSQLCondition_placeholders_match_params
  (rt : Runtime) (features : list Feature.t) (json : value)
  (filter : option QueryTree.t) :
  Forall (fun f => placeholders (Feature.name f) = 0) features ->
  Source.sanitizeFilter rt json = Normal filter ->
  exists cond pieces,
    toSQLCondition rt features filter = Normal cond
    /\ placeholders (SQLCondition.sql cond)
       = List.length (SQLCondition.params cond)
    /\ boundCondition rt features filter = Normal pieces
    /\ bindPlaceholders (SQLCondition.sql cond) (SQLCondition.params cond)
       = Some pieces.
Proof.
  intros Hnames _.
  assert (H : exists cond pieces,
             toSQLCondition rt features filter = Normal cond
             /\ boundCondition rt features filter = Normal pieces
             /\ Agree cond pieces).
  { destruct filter as [q|]; simpl.
    - now apply compileNode_agrees.
    - exists emptyCondition, []. auto using Agree_empty. }
  destruct H as (cond & pieces & Hc & Hb & Ha).
  destruct (Agree_binds _ _ Ha) as [Hn Hbind].
  exists cond, pieces. auto.
Qed.


End Compile.

(* ================================================================== *)
(** * Comparisons against a null literal *)
(* ================================================================== *)

Module NullLiteral.
Import Js JsNotations DeepintSources.

Lemma forOf_app {A S : Type} (body : S -> A -> Completion S)
  (xs ys : list A) (s : S) :
  forOf body (xs ++ ys) s = (s' <- forOf body xs s ;; forOf body ys s').
Proof.
  revert s. induction xs as [|x xs IH]; intros s; cbn [forOf List.app bind].
  - reflexivity.
  - destruct (body s x) as [s1|e]; cbn [bind]; [apply IH | reflexivity].
Qed.

Lemma joinChild_empty (sep : string) (st : JoinState) :
  joinChild sep st emptyCondition = st.
Proof. destruct st as [[sql f] params]. reflexivity. Qed.

(** C10.  A leaf whose operation is not [null] and whose literal is
    [null] compiles to the empty condition, whatever the fields; and a
    node compiles to the same condition with and without such a child. *)
Theorem null_literal_leaf_is_skipped
  (rt : Runtime) (features : list Feature.t) (leaf : QueryTree.t) :
  In (QueryTree.type leaf) ["single"; "one"] ->
  QueryTree.operation leaf <> "null" ->
  QueryTree.right leaf = None ->
  toSQLCondition rt features (Some leaf) = Normal emptyCondition
  /\ forall ty op l r before after,
       compileNode rt features
         (QueryTree.mk ty op l r (before ++ leaf :: after))
       = compileNode rt features (QueryTree.mk ty op l r (before ++ after)).
Proof.
  intros Hty Hop Hright.
  assert (Hleaf : compileNode rt features leaf = Normal emptyCondition).
  { destruct leaf as [ty op l r cs]. cbn [QueryTree.type QueryTree.operation
      QueryTree.right] in *. subst r.
    assert (Hcase : (String.eqb ty "anyof" = false
                     /\ String.eqb ty "allof" = false
                     /\ String.eqb ty "not" = false)).
    { destruct Hty as [<-|[<-|[]]]; repeat split; reflexivity. }
    destruct Hcase as (E1 & E2 & E3).
    cbn [compileNode]. rewrite E1, E2, E3.
    unfold leafCondition. cbn [QueryTree.operation QueryTree.right].
    apply String.eqb_neq in Hop. rewrite Hop. reflexivity. }
  split; [exact Hleaf|].
  intros ty op l r before after.
  assert (Hloop : forall sep st,
             forOf (fun st child =>
                      subQ <- compileNode rt features child ;;
                      Normal (joinChild sep st subQ))
               (before ++ leaf :: after) st
             = forOf (fun st child =>
                        subQ <- compileNode rt features child ;;
                        Normal (joinChild sep st subQ))
                 (before ++ after) st).
  { intros sep st. rewrite !forOf_app.
    destruct (forOf _ before st) as [st'|e]; cbn [bind forOf]; [|reflexivity].
    rewrite Hleaf. cbn [bind]. now rewrite joinChild_empty. }
  cbn [compileNode]. rewrite !Hloop. reflexivity.
Qed.

End NullLiteral.

(* ================================================================== *)
(** * Wildcards in match patterns *)
(* ================================================================== *)

Module Wildcards.
Import Js JsNotations DeepintSources Postgres Matching.

Lemma like_escape (q : ascii) (p s : string) :
  like (String "\" (String q p)) s
  = match s with
    | EmptyString => false
    | String c s' => Ascii.eqb c q && like p s'
    end.
Proof. reflexivity. Qed.

Lemma like_percent (p s : string) :
  like (String "%" p) s
  = like p s
    || match s with
       | EmptyString => false
       | String _ s' => like (String "%" p) s'
       end.
Proof. destruct s; reflexivity. Qed.

Lemma like_char (a : ascii) (p s : string) :
  Ascii.eqb a "\" = false -> Ascii.eqb a "%" = false ->
  Ascii.eqb a "_" = false ->
  like (String a p) s
  = match s with
    | EmptyString => false
    | String c s' => Ascii.eqb c a && like p s'
    end.
Proof. intros E1 E2 E3. cbn [like]. now rewrite E1, E2, E3. Qed.

Lemma like_percent_only (s : string) : like "%" s = true.
Proof.
  induction s as [|c s IH]; rewrite like_percent; [reflexivity|].
  rewrite IH. apply orb_true_r.
Qed.

Lemma replaceWildcards_cons (a : ascii) (rest : string) :
  replaceWildcards (String a rest)
  = if Ascii.eqb a "%" then String "\" (String "%" (replaceWildcards rest))
    else if Ascii.eqb a "_" then String "\" (String "_" (replaceWildcards rest))
    else String a (replaceWildcards rest).
Proof.
  unfold replaceWildcards. cbn [escapeChar].
  destruct (Ascii.eqb_spec a "%") as [->|H1]; [reflexivity|].
  cbn [escapeChar].
  destruct (Ascii.eqb_spec a "_") as [->|H2]; reflexivity.
Qed.

(** Every [%] and [_] of the literal comes out behind a backslash, and
    nothing else changes. *)
Lemma like_literal (literal p : string) :
  plain literal = true ->
  forall s,
    like (replaceWildcards literal ++ p) s
    = match literal, s with
      | EmptyString, _ => like p s
      | String _ _, EmptyString => false
      | String a literal', String c s' =>
          Ascii.eqb c a && like (replaceWildcards literal' ++ p) s'
      end.
Proof.
  destruct literal as [|a literal']; [reflexivity|].
  cbn [plain]. intros H. apply andb_true_iff in H as [Ha _].
  apply negb_true_iff in Ha. intros s.
  rewrite replaceWildcards_cons.
  destruct (Ascii.eqb_spec a "%") as [->|H1];
    [cbn [String.append]; now rewrite like_escape|].
  destruct (Ascii.eqb_spec a "_") as [->|H2];
    [cbn [String.append]; now rewrite like_escape|].
  cbn [String.append]. apply like_char; [exact Ha | |];
    now apply Ascii.eqb_neq.
Qed.

Lemma plain_tail (a : ascii) (s : string) :
  plain (String a s) = true -> plain s = true.
Proof. cbn [plain]. intros H. now apply andb_true_iff in H as [_ H]. Qed.

(** For a literal without a backslash, the three patterns ask for what
    their operations are named after. *)
Lemma like_startsWith (literal : string) :
  plain literal = true ->
  forall s, like (replaceWildcards literal ++ "%") s = startsWith literal s.
Proof.
  induction literal as [|a literal IH]; intros Hp s; rewrite like_literal by exact Hp.
  - now rewrite like_percent_only.
  - destruct s as [|c s]; [reflexivity|]. cbn [startsWith].
    rewrite IH by (eapply plain_tail; exact Hp). reflexivity.
Qed.

Lemma like_exactly (literal : string) :
  plain literal = true ->
  forall s, like (replaceWildcards literal ++ EmptyString) s
            = String.eqb s literal.
Proof.
  induction literal as [|a literal IH]; intros Hp s; rewrite like_literal by exact Hp.
  - destruct s; reflexivity.
  - destruct s as [|c s]; [reflexivity|]. cbn [String.eqb].
    rewrite IH by (eapply plain_tail; exact Hp).
    destruct (Ascii.eqb c a); reflexivity.
Qed.

Lemma append_empty (s : string) : s ++ EmptyString = s.
Proof. induction s as [|c s IH]; cbn; [reflexivity | now rewrite IH]. Qed.

Lemma like_endsWith (literal : string) :
  plain literal = true ->
  forall s, like ("%" ++ replaceWildcards literal) s = endsWith literal s.
Proof.
  intros Hp s. cbn [String.append].
  induction s as [|c s IH]; rewrite like_percent; cbn [endsWith];
    rewrite <- (append_empty (replaceWildcards literal)) at 1;
    rewrite like_exactly by exact Hp; [reflexivity|].
  now rewrite IH.
Qed.

Lemma like_contains (literal : string) :
  plain literal = true ->
  forall s, like ("%" ++ replaceWildcards literal ++ "%") s
            = contains literal s.
Proof.
  intros Hp s. cbn [String.append].
  induction s as [|c s IH]; rewrite like_percent; cbn [contains];
    rewrite like_startsWith by exact Hp; [reflexivity|].
  now rewrite IH.
Qed.

(** C8.  A literal that holds a backslash defeats the escaping: for the
    literal [\%] the [sw] pattern is [\\%%], in which the backslashes
    pair up and both [%] are wildcards, so a value that does not start
    with [\%] matches. *)
Theorem startsWith_pattern_keeps_a_wildcard (rt : Runtime) :
  compileNode rt [Feature.mk 0 text "t"]
    (QueryTree.mk "single" "sw" 0%float (Some "\%") [])
  = Normal (SQLCondition.mk (DQ ++ "t" ++ DQ ++ " LIKE ?") [VString "\\%%"])
  /\ like "\\%%" "\abc" = true
  /\ startsWith "\%" "\abc" = false.
Proof. repeat split. Qed.

End Wildcards.

(* ================================================================== *)
(** * The update service *)
(* ================================================================== *)

Module Ingestion.
Import Js JsNotations DeepintSources Source.

(** *** The batch of one cycle *)

Lemma drain_spec (instancesToPush updateQueue : list Instance) :
  drain instancesToPush updateQueue
  = ((instancesToPush
        ++ firstn (DEEPINT_UPDATE_INSTANCES_LIMIT - List.length instancesToPush)
             updateQueue)%list,
     skipn (DEEPINT_UPDATE_INSTANCES_LIMIT - List.length instancesToPush)
       updateQueue).
Proof.
  revert instancesToPush.
  induction updateQueue as [|first rest IH]; intros acc; cbn [drain].
  - now rewrite firstn_nil, skipn_nil, app_nil_r.
  - destruct (Nat.ltb_spec (List.length acc) DEEPINT_UPDATE_INSTANCES_LIMIT) as [Hlt|Hge].
    + rewrite IH, length_app. cbn [List.length].
      replace (DEEPINT_UPDATE_INSTANCES_LIMIT - List.length acc)
        with (S (DEEPINT_UPDATE_INSTANCES_LIMIT - (List.length acc + 1))) by lia.
      cbn [firstn skipn]. now rewrite <- app_assoc.
    + replace (DEEPINT_UPDATE_INSTANCES_LIMIT - List.length acc) with 0 by lia.
      cbn [firstn skipn]. now rewrite app_nil_r.
Qed.

Lemma firstn_min {A : Type} (n : nat) (xs : list A) :
  firstn (Nat.min n (List.length xs)) xs = firstn n xs.
Proof.
  destruct (Nat.le_ge_cases n (List.length xs)) as [H|H].
  - now rewrite Nat.min_l.
  - rewrite Nat.min_r by exact H.
    now rewrite firstn_all, firstn_all2.
Qed.

Lemma skipn_min {A : Type} (n : nat) (xs : list A) :
  skipn (Nat.min n (List.length xs)) xs = skipn n xs.
Proof.
  destruct (Nat.le_ge_cases n (List.length xs)) as [H|H].
  - now rewrite Nat.min_l.
  - rewrite Nat.min_r by exact H.
    now rewrite skipn_all, skipn_all2.
Qed.

(** Pushed instances join the queue at its end, in the order pushed. *)
Lemma run_enqueues (closed logEvents : bool) (instances : list Instance) :
  forall (w : Worker) (t : DataSourceTable),
    run closed logEvents (w, t) (map Enqueue instances)
    = ((w, withUpdateQueue t (updateQueue t ++ instances)%list), []).
Proof.
  induction instances as [|instance rest IH]; intros w t; cbn [map run step].
  - rewrite app_nil_r. destruct t; reflexivity.
  - rewrite IH. unfold enqueue. cbn [withUpdateQueue updateQueue].
    now rewrite <- app_assoc.
Qed.

(** C4.  A cycle that forwards takes the first [min(100, length)]
    instances of the queue, in queue order, as its batch, posts exactly
    them, and leaves the others queued in their order; and the order of
    the queue is the order of insertion. *)
Theorem runUpdateServiceTable_batch
  (closed logEvents : bool) (t : DataSourceTable) (permits : nat) :
  updateSem t = S permits ->
  requiredUpdate t = true \/ updateQueue t <> [] ->
  let n := Nat.min DEEPINT_UPDATE_INSTANCES_LIMIT (List.length (updateQueue t)) in
  let batch := firstn n (updateQueue t) in
  resume closed logEvents Acquiring t Acquired
  = Some (Sending batch,
          mkTable (table t) (publicKey t) (secretKey t) (fields t)
            permits (skipn n (updateQueue t)) false,
          [Post (publicKey t) (secretKey t) batch])
  /\ (batch ++ skipn n (updateQueue t))%list = updateQueue t
  /\ List.length batch = n
  /\ forall (w : Worker) (t0 : DataSourceTable) (instances : list Instance),
       updateQueue
         (snd (fst (run closed logEvents (w, t0) (map Enqueue instances))))
       = (updateQueue t0 ++ instances)%list.
Proof.
  intros Hsem Hwork n batch. subst n batch.
  rewrite firstn_min, skipn_min. repeat split.
  - unfold resume. rewrite Hsem.
    cbn [withUpdateSem requiredUpdate updateQueue].
    assert (Hskip : negb (requiredUpdate t)
                    && (List.length (updateQueue t) =? 0)%nat = false).
    { destruct Hwork as [->|Hq]; [reflexivity|].
      destruct (updateQueue t); [contradiction|].
      apply andb_false_r. }
    rewrite Hskip, drain_spec. reflexivity.
  - apply firstn_skipn.
  - rewrite length_firstn. reflexivity.
  - intros w t0 instances. now rewrite run_enqueues.
Qed.

(** *** Retrying a batch *)


Section Worker.
Variable closed : bool.
Variable logEvents : bool.




End Worker.



End Ingestion.

(* ================================================================== *)
(** * Persisting pushed instances *)
(* ================================================================== *)

Module Persistence.
Import Js JsNotations DeepintSources Source.

Section Database.
Variable Db : Type.
Variable poolQuery : Db -> string -> list value -> Db * QueryResult.


(** Once a write fails, the instances after it change nothing: not the
    database, not the queue, not the outcome. *)
Lemma pushInstances_stops_at_failure (before : list Instance)
  (failed : Instance) (after : list Instance) :
  forall (t : DataSourceTable) (d : Db),
    (exists error,
        snd (pushInstances Db poolQuery t (before ++ [failed]) d)
        = Rejected error) ->
    pushInstances Db poolQuery t (before ++ failed :: after) d
    = pushInstances Db poolQuery t (before ++ [failed]) d.
Proof.
  induction before as [|instance rest IH]; intros t d [error Herr];
    cbn [List.app pushInstances] in *.
  - destruct (pushInstance Db poolQuery t failed d) as [[d' t'] [[]|e|]];
      [discriminate Herr | reflexivity | reflexivity].
  - destruct (pushInstance Db poolQuery t instance d) as [[d' t'] [[]|e|]];
      [apply IH; eauto | reflexivity | reflexivity].
Qed.

End Database.

(** C3.  The statement [pushInstance] sends names the table
    [[object Object]], whatever the source's configured table is: the
    text is built from the table object, not from its [table] field. *)
Theorem pushInstance_ignores_the_configured_table :
  (forall (t : DataSourceTable) (instance : Instance) (name : string),
      insertSentence
        (mkTable name (publicKey t) (secretKey t) (fields t)
           (updateSem t) (updateQueue t) (requiredUpdate t)) instance
      = insertSentence t instance)
  /\ Text.toPostgresTemplate
       (fst (insertSentence Examples.source [VNumber 5; VString "x"]))
     = "INSERT INTO " ++ DQ ++ "[object Object]" ++ DQ
         ++ "(" ++ DQ ++ "a" ++ DQ ++ "," ++ DQ ++ "b" ++ DQ
         ++ ") VALUES ($1,$2)".
Proof. split; [intros; reflexivity | reflexivity]. Qed.

End Persistence.

(* ================================================================== *)
(** * Queries *)
(* ================================================================== *)

Module Queries.
Import Js JsNotations DeepintSources Source.

Section WithRuntime.
Variable rt : Runtime.

(** *** Compiling never throws *)

Lemma leafCondition_returns (features : list Feature.t) (q : QueryTree.t) :
  exists cond, leafCondition rt features q = Normal cond.
Proof.
  unfold leafCondition.
  destruct (negb _ && _); [eexists; reflexivity|].
  destruct (array_get features (QueryTree.left q)) as [feature|];
    [|eexists; reflexivity].
  assert (Hcmp : exists cmp,
             turnInto rt
               match QueryTree.right q with
               | Some s => VString s
               | None => VNull
               end (Feature.type feature) = Normal cmp
             /\ exists lit, ToString rt cmp = Normal lit).
  { destruct (QueryTree.right q) as [s|].
    - destruct (CoercionFacts.turnInto_string_returns rt s (Feature.type feature))
        as [cmp Hcmp].
      exists cmp. split; [exact Hcmp|].
      apply CoercionFacts.ToString_scalar.
      eapply CoercionFacts.turnInto_scalar. exact Hcmp.
    - exists VNull. split; [reflexivity | exists "null"; reflexivity]. }
  destruct Hcmp as (cmp & -> & lit & Hlit). cbn [bind]. rewrite Hlit.
  cbn [bind].
  repeat match goal with
    | |- context [if ?b then _ else _] => destruct b
    end; eexists; reflexivity.
Qed.

Lemma compileNode_returns (features : list Feature.t) (q : QueryTree.t) :
  exists cond, compileNode rt features q = Normal cond.
Proof.
  induction q as [ty op l r cs IH] using Compile.QueryTree_induction.
  assert (Hloop : forall sep st, exists st',
             forOf (fun st child =>
                      subQ <- compileNode rt features child ;;
                      Normal (joinChild sep st subQ)) cs st = Normal st').
  { intros sep. induction IH as [|child rest [cond Hc] _ IHrest];
      intros st; cbn [forOf]; [eexists; reflexivity|].
    rewrite Hc. cbn [bind]. apply IHrest. }
  cbn [compileNode].
  destruct (String.eqb ty "anyof");
    [|destruct (String.eqb ty "allof"); [|destruct (String.eqb ty "not")]].
  - destruct (Hloop " OR (" (EmptyString, true, [])) as [[[sql f] params] ->].
    eexists; reflexivity.
  - destruct (Hloop " AND (" (EmptyString, true, [])) as [[[sql f] params] ->].
    eexists; reflexivity.
  - destruct (Hloop " OR (" (EmptyString, true, [])) as [[[sql f] params] ->].
    eexists; reflexivity.
  - apply leafCondition_returns.
Qed.

Lemma toSQLCondition_returns (features : list Feature.t)
  (filter : option QueryTree.t) :
  exists cond, toSQLCondition rt features filter = Normal cond.
Proof.
  destruct filter as [q|]; [apply compileNode_returns | eexists; reflexivity].
Qed.

Lemma selectSentence_returns (t : DataSourceTable)
  (filter : option QueryTree.t) (order : float) (dir : string)
  (skip limit : option float) (projection : list float) :
  exists features sentence values,
    selectSentence rt t filter order dir skip limit projection
    = Normal (features, sentence, values).
Proof.
  unfold selectSentence.
  destruct (toSQLCondition_returns (fields t) filter) as [cond ->].
  cbn [bind]. eexists _, _, _. reflexivity.
Qed.

(** *** A failed read *)

(** A failed read ends the rows exactly as their end does: nothing that
    would have followed it is read. *)
Lemma readLoop_failed_read (features : list Feature.t)
  (reads : list ReadResult) (err : string) (after : list ReadResult) :
  readLoop rt features (reads ++ ReadFailed err :: after)
  = readLoop rt features reads.
Proof.
  induction reads as [|[e|[|row rows]] reads IH]; cbn [readLoop List.app];
    try reflexivity.
  now rewrite IH.
Qed.

End WithRuntime.

(** C6, as the code has it.  A failure to obtain a connection rejects the
    returned promise with that failure, before any callback and with no
    second attempt.  A failed cursor read does not reject: it ends the
    rows as their end does, nothing after it is read, a failure of the
    first read resolves the promise, and once connected the promise never
    rejects. *)
Theorem query_rejects_only_without_a_connection
  (rt : Runtime) (t : DataSourceTable) (filter : option QueryTree.t)
  (order : float) (dir : string) (skip limit : option float)
  (projection : list float) :
  (forall ex,
      query rt t filter order dir skip limit projection (ConnectFailed ex)
      = ([], Rejected ex))
  /\ (forall reads err after,
        query rt t filter order dir skip limit projection
          (Connected (reads ++ ReadFailed err :: after))
        = query rt t filter order dir skip limit projection (Connected reads))
  /\ (forall err after,
        snd (query rt t filter order dir skip limit projection
               (Connected (ReadFailed err :: after)))
        = Resolved tt)
  /\ (forall reads reason,
        snd (query rt t filter order dir skip limit projection (Connected reads))
        <> Rejected reason).
Proof.
  unfold query.
  destruct (selectSentence_returns rt t filter order dir skip limit projection)
    as (features & sentence & values & ->).
  repeat split.
  - intros reads err after. now rewrite readLoop_failed_read.
  - intros reads reason.
    destruct (readLoop rt features reads) as [effects [|]]; discriminate.
Qed.

(** C6, counterexample.  With a connection whose first read fails, the
    promise of [query] resolves. *)
Lemma query_resolves_after_a_failed_read :
  snd (query SmallRuntime.runtime Examples.source None (-1)%float "asc"
         (Some 0%float) (Some 0%float) []
         (Connected [ReadFailed "terminating connection"]))
  = Resolved tt.
Proof. reflexivity. Qed.

(** *** Nominal values *)

(** An index that names no field, or a field that is not nominal, is
    answered with the empty list and no statement. *)
Lemma getNominalValues_not_nominal (rt : Runtime) (Db : Type)
  (poolQuery : Db -> string -> list value -> Db * QueryResult)
  (t : DataSourceTable) (filter : option QueryTree.t) (query : string)
  (feature : float) (d : Db) :
  match array_get (fields t) feature with
  | Some field => Feature.type field <> nominal
  | None => True
  end ->
  getNominalValues rt Db poolQuery t filter query feature d = (d, Resolved []).
Proof.
  unfold getNominalValues, nominalRequest.
  destruct (array_get (fields t) feature) as [field|]; [|reflexivity].
  destruct (Feature.type field); intros H; try reflexivity.
  now contradiction H.
Qed.

(** C7.  The text query is lower-cased and then matched by a plain
    [LIKE], which tells upper case from lower case: for the query [Set]
    the statement asks for values like [set%], which leaves out [Setosa],
    a value the query is a prefix of whatever the case. *)
Theorem getNominalValues_prefix_match_is_case_sensitive (rt : Runtime) :
  nominalRequest rt Examples.flowers None "Set" 0%float
  = Normal (Some ("species",
                  "SELECT DISTINCT " ++ DQ ++ "species" ++ DQ
                    ++ " FROM " ++ DQ ++ "iris" ++ DQ
                    ++ " WHERE " ++ DQ ++ "species" ++ DQ ++ " LIKE ?"
                    ++ " ORDER BY " ++ DQ ++ "species" ++ DQ ++ "  LIMIT 128",
                  [VString "set%"]))
  /\ Postgres.like "set%" "Setosa" = false
  /\ Matching.startsWithCI "Set" "Setosa" = true.
Proof. repeat split. Qed.

End Queries.

(* ================================================================== *)
(** * The statement template *)
(* ================================================================== *)

Module Template.
Import Text Placeholders.

Lemma hasPlaceholder_placeholders (s : string) :
  hasPlaceholder s = false <-> placeholders s = 0.
Proof.
  induction s as [|c s IH]; cbn [hasPlaceholder placeholders]; [tauto|].
  destruct (Ascii.eqb c "?"); cbn [orb]; [split; [discriminate | lia]|].
  exact IH.
Qed.

Lemma placeholders_digit (z : Z) : (z < 10)%Z -> placeholders (Js.digit z) = 0.
Proof.
  intros H. unfold Js.digit.
  assert (Hk : Z.to_nat z <= 9) by lia.
  destruct (Z.to_nat z) as [|[|[|[|[|[|[|[|[|[|k]]]]]]]]]]; try reflexivity; lia.
Qed.

Lemma placeholders_decimal (z : Z) : placeholders (Js.decimal z) = 0.
Proof.
  unfold Js.decimal. generalize 21 as fuel. intros fuel. revert z.
  induction fuel as [|fuel IH]; intros z; cbn [Js.decimalFuel]; [reflexivity|].
  destruct (Z.ltb_spec z 10) as [Hlt|Hge]; [now apply placeholders_digit|].
  rewrite Compile.placeholders_app, IH, placeholders_digit; [reflexivity|].
  apply Z.mod_pos_bound. lia.
Qed.

Lemma placeholders_replaceFirst (r s : string) :
  hasPlaceholder s = true ->
  placeholders (replaceFirst r s) = placeholders r + (placeholders s - 1).
Proof.
  induction s as [|c s IH]; cbn [hasPlaceholder replaceFirst placeholders];
    [discriminate|].
  destruct (Ascii.eqb c "?") eqn:Ec; cbn [orb]; intros H.
  - rewrite Compile.placeholders_app. lia.
  - cbn [placeholders]. rewrite Ec, IH by exact H.
    assert (placeholders s <> 0).
    { intros E. apply hasPlaceholder_placeholders in E. congruence. }
    lia.
Qed.

Lemma placeholders_le_length (s : string) : placeholders s <= String.length s.
Proof.
  induction s as [|c s IH]; cbn [placeholders String.length]; [lia|].
  destruct (Ascii.eqb c "?"); lia.
Qed.

Lemma templateLoop_done (rounds : nat) :
  forall (queryTemplate : string) (i : Z),
    placeholders queryTemplate <= rounds ->
    hasPlaceholder (templateLoop rounds queryTemplate i) = false.
Proof.
  induction rounds as [|rounds IH]; intros q i H; cbn [templateLoop].
  - apply hasPlaceholder_placeholders. lia.
  - destruct (hasPlaceholder q) eqn:E; [|exact E].
    apply IH. rewrite placeholders_replaceFirst by exact E.
    rewrite Compile.placeholders_app, placeholders_decimal. cbn. lia.
Qed.

(** The rounds allowed to the loop are enough: no [?] is left. *)
Lemma toPostgresTemplate_leaves_no_placeholder (queryTemplate : string) :
  hasPlaceholder (toPostgresTemplate queryTemplate) = false.
Proof. apply templateLoop_done, placeholders_le_length. Qed.

End Template.

(* ================================================================== *)
(** * The theorems at concrete inputs *)
(* ================================================================== *)

Module Witnesses.
Import Js JsNotations DeepintSources Source Placeholders.

Lemma toSQLCondition_placeholders_witness :
  Forall (fun f => placeholders (Feature.name f) = 0) Examples.fields
  /\ sanitizeFilter SmallRuntime.runtime Examples.filterJson
     = Normal Examples.filter
  /\ exists cond pieces,
       toSQLCondition SmallRuntime.runtime Examples.fields Examples.filter
       = Normal cond
       /\ placeholders (SQLCondition.sql cond)
          = List.length (SQLCondition.params cond)
       /\ boundCondition SmallRuntime.runtime Examples.fields Examples.filter
          = Normal pieces
       /\ bindPlaceholders (SQLCondition.sql cond) (SQLCondition.params cond)
          = Some pieces.
Proof.
  assert (Hnames : Forall (fun f => placeholders (Feature.name f) = 0)
                     Examples.fields)
    by (repeat constructor).
  assert (Hfilter : sanitizeFilter SmallRuntime.runtime Examples.filterJson
                    = Normal Examples.filter)
    by reflexivity.
  split; [exact Hnames|]. split; [exact Hfilter|].
  exact (Compile.toSQLCondition_placeholders_match_params
           SmallRuntime.runtime Examples.fields Examples.filterJson
           Examples.filter Hnames Hfilter).
Defined.

Lemma null_literal_leaf_witness :
  In (QueryTree.type Examples.nullComparison) ["single"; "one"]
  /\ QueryTree.operation Examples.nullComparison <> "null"
  /\ QueryTree.right Examples.nullComparison = None
  /\ toSQLCondition SmallRuntime.runtime Examples.fields
       (Some Examples.nullComparison)
     = Normal emptyCondition
  /\ forall ty op l r before after,
       compileNode SmallRuntime.runtime Examples.fields
         (QueryTree.mk ty op l r (before ++ Examples.nullComparison :: after))
       = compileNode SmallRuntime.runtime Examples.fields
           (QueryTree.mk ty op l r (before ++ after)).
Proof.
  assert (Hty : In (QueryTree.type Examples.nullComparison) ["single"; "one"])
    by (left; reflexivity).
  assert (Hop : QueryTree.operation Examples.nullComparison <> "null")
    by discriminate.
  assert (Hright : QueryTree.right Examples.nullComparison = None)
    by reflexivity.
  split; [exact Hty|]. split; [exact Hop|]. split; [exact Hright|].
  exact (NullLiteral.null_literal_leaf_is_skipped SmallRuntime.runtime
           Examples.fields Examples.nullComparison Hty Hop Hright).
Defined.

Lemma runUpdateServiceTable_batch_witness :
  updateSem Examples.queued = 1
  /\ (requiredUpdate Examples.queued = true
      \/ updateQueue Examples.queued <> [])
  /\ resume false true Acquiring Examples.queued Acquired
     = Some (Sending Examples.batch,
             mkTable "readings" "public" "secret" Examples.fields 0 [] false,
             [Post "public" "secret" Examples.batch]).
Proof.
  assert (Hsem : updateSem Examples.queued = 1) by reflexivity.
  assert (Hwork : requiredUpdate Examples.queued = true
                  \/ updateQueue Examples.queued <> [])
    by (right; discriminate).
  split; [exact Hsem|]. split; [exact Hwork|].
  exact (proj1 (Ingestion.runUpdateServiceTable_batch false true
                  Examples.queued 0 Hsem Hwork)).
Defined.


End Witnesses.

(* ================================================================== *)
(** * Credentials *)
(* ================================================================== *)

Module Credentials.
Import Js Text Source.

Lemma decodeFirst_utf8Char (c : ascii) (rest : list Byte.byte) :
  Utf8.decodeFirst (utf8Char c ++ rest) = Some (c, rest).
Proof.
  destruct c as [[] [] [] [] [] [] [] []]; reflexivity.
Qed.

Lemma utf8_injective (a : string) :
  forall b, utf8 a = utf8 b -> a = b.
Proof.
  induction a as [|c a IH]; intros [|c' b] H; cbn [utf8] in H.
  - reflexivity.
  - apply (f_equal Utf8.decodeFirst) in H.
    rewrite decodeFirst_utf8Char in H. discriminate H.
  - apply (f_equal Utf8.decodeFirst) in H.
    rewrite decodeFirst_utf8Char in H. discriminate H.
  - apply (f_equal Utf8.decodeFirst) in H.
    rewrite !decodeFirst_utf8Char in H.
    injection H as -> H. f_equal. now apply IH.
Qed.

Lemma sameBytes_true (a : list Byte.byte) :
  forall b, sameBytes a b = true <-> a = b.
Proof.
  induction a as [|x a IH]; intros [|y b]; cbn [sameBytes];
    try (split; [discriminate | intros [=]]); [tauto|].
  rewrite andb_true_iff, IH. split.
  - intros [Hxy ->]. f_equal. now apply Byte.byte_dec_bl.
  - intros [= -> ->]. split; [|reflexivity]. now apply Byte.byte_dec_lb.
Qed.

Lemma secureStringCompare_true (a b : string) :
  secureStringCompare a b = true <-> a = b.
Proof.
  unfold secureStringCompare, timingSafeEqual. split.
  - destruct (List.length (utf8 a) =? List.length (utf8 b))%nat;
      [|discriminate].
    intros H. apply utf8_injective. now apply sameBytes_true.
  - intros ->. rewrite Nat.eqb_refl. now apply sameBytes_true.
Qed.


Lemma getTableFromCredentials_find (tables : list DataSourceTable)
  (pubkey secKey : string) :
  getTableFromCredentials tables pubkey secKey
  = find (fun t => String.eqb pubkey (publicKey t)
                   && String.eqb secKey (secretKey t)) tables.
Proof.
  induction tables as [|t rest IH]; cbn [getTableFromCredentials find];
    [reflexivity|].
  destruct (String.eqb_spec pubkey (publicKey t)) as [E1|N1],
           (String.eqb_spec secKey (secretKey t)) as [E2|N2].
  - assert (H1 : secureStringCompare pubkey (publicKey t) = true)
      by now apply secureStringCompare_true.
    assert (H2 : secureStringCompare secKey (secretKey t) = true)
      by now apply secureStringCompare_true.
    now rewrite H1, H2.
  - assert (H2 : secureStringCompare secKey (secretKey t) = false).
    { destruct (secureStringCompare secKey (secretKey t)) eqn:H; [|reflexivity].
      apply secureStringCompare_true in H. contradiction. }
    rewrite H2, andb_false_r. exact IH.
  - assert (H1 : secureStringCompare pubkey (publicKey t) = false).
    { destruct (secureStringCompare pubkey (publicKey t)) eqn:H; [|reflexivity].
      apply secureStringCompare_true in H. contradiction. }
    rewrite H1. exact IH.
  - assert (H1 : secureStringCompare pubkey (publicKey t) = false).
    { destruct (secureStringCompare pubkey (publicKey t)) eqn:H; [|reflexivity].
      apply secureStringCompare_true in H. contradiction. }
    rewrite H1. exact IH.
Qed.

(** X2.  The table a request is served from is the first one, in the
    order of the configuration, whose public and secret key both equal
    the texts of the two credential headers; there is none exactly when no
    table has both.  A header that is absent reads as the text
    [undefined]. *)
Theorem checkAuth_first_matching_table (tables : list DataSourceTable)
  (request : UpdateController.Request) :
  let pubkey :=
    UpdateController.headerText (UpdateController.publicKeyHeader request) in
  let secKey :=
    UpdateController.headerText (UpdateController.secretKeyHeader request) in
  (forall t,
      UpdateController.checkAuth tables request = Some t <->
      exists before after,
        tables = (before ++ t :: after)%list
        /\ publicKey t = pubkey /\ secretKey t = secKey
        /\ Forall (fun t' => publicKey t' <> pubkey \/ secretKey t' <> secKey)
             before)
  /\ (UpdateController.checkAuth tables request = None <->
      Forall (fun t' => publicKey t' <> pubkey \/ secretKey t' <> secKey)
        tables).
Proof.
  intros pubkey secKey. unfold UpdateController.checkAuth.
  fold pubkey secKey. rewrite getTableFromCredentials_find.
  split.
  - intros t. split.
    + induction tables as [|t0 rest IH]; cbn [find]; [discriminate|].
      destruct (String.eqb_spec pubkey (publicKey t0)) as [E1|N1],
               (String.eqb_spec secKey (secretKey t0)) as [E2|N2];
        cbn [andb].
      * intros [= ->]. exists [], rest. repeat split; auto.
      * intros H. destruct (IH H) as (before & after & -> & Hp & Hs & Hb).
        exists (t0 :: before), after.
        repeat split; auto; try (constructor; auto; right; congruence).
      * intros H. destruct (IH H) as (before & after & -> & Hp & Hs & Hb).
        exists (t0 :: before), after.
        repeat split; auto; try (constructor; auto; left; congruence).
      * intros H. destruct (IH H) as (before & after & -> & Hp & Hs & Hb).
        exists (t0 :: before), after.
        repeat split; auto; try (constructor; auto; left; congruence).
    + intros (before & after & -> & Hp & Hs & Hb).
      induction Hb as [|t0 before H0 Hb IH]; cbn [app find].
      * rewrite Hp, Hs, !String.eqb_refl. reflexivity.
      * destruct (String.eqb_spec pubkey (publicKey t0)) as [E1|N1],
                 (String.eqb_spec secKey (secretKey t0)) as [E2|N2];
          cbn [andb]; try exact IH.
        destruct H0 as [H0|H0]; congruence.
  - split.
    + induction tables as [|t0 rest IH]; cbn [find]; [constructor|].
      destruct (String.eqb_spec pubkey (publicKey t0)) as [E1|N1],
               (String.eqb_spec secKey (secretKey t0)) as [E2|N2];
        cbn [andb]; try discriminate; intros H; constructor; auto;
        try (left; congruence); right; congruence.
    + induction 1 as [|t0 rest H0 Hr IH]; cbn [find]; [reflexivity|].
      destruct (String.eqb_spec pubkey (publicKey t0)) as [E1|N1],
               (String.eqb_spec secKey (secretKey t0)) as [E2|N2];
        cbn [andb]; try exact IH.
      destruct H0 as [H0|H0]; congruence.
Qed.

End Credentials.

(* ================================================================== *)
(** * The statements sent to the database *)
(* ================================================================== *)

Module Statements.
Import Js JsNotations DeepintSources Source Text Placeholders Numbering.

Lemma append_assoc (a b c : string) : (a ++ b) ++ c = a ++ b ++ c.
Proof. induction a as [|x a IH]; cbn; [reflexivity | now rewrite IH]. Qed.

Lemma numberFrom_clean (s : string) (i : Z) :
  placeholders s = 0 -> numberFrom i s = s.
Proof.
  induction s as [|c s IH]; cbn [placeholders numberFrom]; [reflexivity|].
  destruct (Ascii.eqb c "?"); [discriminate|]. intros H. now rewrite IH.
Qed.

Lemma numberFrom_app_clean (pre s : string) (i : Z) :
  placeholders pre = 0 -> numberFrom i (pre ++ s) = pre ++ numberFrom i s.
Proof.
  induction pre as [|c pre IH]; cbn [placeholders numberFrom append];
    [reflexivity|].
  destruct (Ascii.eqb c "?"); [discriminate|]. intros H. now rewrite IH.
Qed.

Lemma hasPlaceholder_app_clean (pre s : string) :
  placeholders pre = 0 -> hasPlaceholder (pre ++ s) = hasPlaceholder s.
Proof.
  induction pre as [|c pre IH]; cbn [placeholders hasPlaceholder append];
    [reflexivity|].
  destruct (Ascii.eqb c "?"); [discriminate|]. exact IH.
Qed.

Lemma replaceFirst_app_clean (r pre s : string) :
  placeholders pre = 0 ->
  replaceFirst r (pre ++ s) = pre ++ replaceFirst r s.
Proof.
  induction pre as [|c pre IH]; cbn [placeholders replaceFirst append];
    [reflexivity|].
  destruct (Ascii.eqb c "?"); [discriminate|]. intros H. now rewrite IH.
Qed.

Lemma first_placeholder (s : string) :
  hasPlaceholder s = true ->
  exists a b, s = a ++ String "?" b /\ placeholders a = 0.
Proof.
  induction s as [|c s IH]; cbn [hasPlaceholder]; [discriminate|].
  destruct (Ascii.eqb_spec c "?") as [->|N]; cbn [orb].
  - intros _. exists EmptyString, s. split; reflexivity.
  - intros H. destruct (IH H) as (a & b & -> & Ha).
    exists (String c a), b. split; [reflexivity|].
    cbn [placeholders]. destruct (Ascii.eqb_spec c "?"); [contradiction|].
    exact Ha.
Qed.

(** The loop, seen from the text it has already numbered. *)
Lemma templateLoop_numberFrom (rounds : nat) :
  forall (pre s : string) (i : Z),
    placeholders pre = 0 -> placeholders s <= rounds ->
    templateLoop rounds (pre ++ s) i = pre ++ numberFrom i s.
Proof.
  induction rounds as [|rounds IH]; intros pre s i Hpre Hs;
    cbn [templateLoop].
  - rewrite numberFrom_clean by lia. reflexivity.
  - rewrite hasPlaceholder_app_clean by exact Hpre.
    destruct (hasPlaceholder s) eqn:E.
    + destruct (first_placeholder s E) as (a & b & -> & Ha).
      rewrite Compile.placeholders_app in Hs. cbn [placeholders] in Hs.
      rewrite Ascii.eqb_refl in Hs.
      rewrite <- append_assoc.
      rewrite replaceFirst_app_clean
        by (rewrite Compile.placeholders_app; lia).
      cbn [replaceFirst]. rewrite Ascii.eqb_refl.
      rewrite <- append_assoc.
      rewrite IH.
      * rewrite (numberFrom_app_clean a) by exact Ha.
        cbn [numberFrom]. rewrite Ascii.eqb_refl.
        rewrite !append_assoc. reflexivity.
      * rewrite !Compile.placeholders_app, Template.placeholders_decimal.
        cbn [placeholders]. cbn. lia.
      * lia.
    + apply Template.hasPlaceholder_placeholders in E.
      rewrite numberFrom_clean by exact E. reflexivity.
Qed.

(** X3.  [toPostgresTemplate] numbers the placeholders of a template from
    left to right: the k-th [?] becomes [$k] and every other character
    stays where it is. *)
Theorem toPostgresTemplate_numbers_left_to_right (queryTemplate : string) :
  toPostgresTemplate queryTemplate = numberFrom 1 queryTemplate.
Proof.
  unfold toPostgresTemplate.
  apply (templateLoop_numberFrom _ EmptyString queryTemplate 1%Z);
    [reflexivity | apply Template.placeholders_le_length].
Qed.

Lemma join_cons (sep x : string) (xs : list string) :
  xs <> [] -> join sep (x :: xs) = x ++ sep ++ join sep xs.
Proof. destruct xs as [|y ys]; [contradiction | reflexivity]. Qed.

Lemma placeholders_join (sep : string) (xs : list string) :
  placeholders sep = 0 ->
  Forall (fun x => placeholders x = 0) xs ->
  placeholders (join sep xs) = 0.
Proof.
  intros Hsep. induction 1 as [|x rest Hx Hrest IH]; [reflexivity|].
  destruct rest as [|y rest]; [exact Hx|].
  rewrite join_cons by discriminate.
  rewrite !Compile.placeholders_app, Hx, Hsep, IH. reflexivity.
Qed.

Lemma numberFrom_marks (n : nat) :
  forall (i : Z) (tail : string),
    placeholders tail = 0 ->
    numberFrom i (join "," (repeat "?" n) ++ tail)
    = join "," (dollars i n) ++ tail.
Proof.
  induction n as [|n IH]; intros i tail Htail.
  - cbn [repeat join dollars append]. now apply numberFrom_clean.
  - destruct n as [|n].
    + cbn [repeat join dollars]. cbn [append numberFrom].
      rewrite Ascii.eqb_refl. now rewrite numberFrom_clean.
    + change (repeat "?" (S (S n))) with ("?" :: repeat "?" (S n)).
      change (dollars i (S (S n)))
        with (("$" ++ decimal i) :: dollars (i + 1) (S n)).
      remember (S n) as m eqn:Em.
      rewrite (join_cons "," "?") by (subst m; discriminate).
      rewrite (join_cons "," ("$" ++ decimal i)) by (subst m; discriminate).
      rewrite !append_assoc.
      cbn [append numberFrom]. rewrite Ascii.eqb_refl.
      change ("," =? "?")%char with false. cbv iota.
      rewrite IH by exact Htail. reflexivity.
Qed.

(** X4.  For a table whose field names hold no [?], the statement
    [pushInstance] sends is an [INSERT] with the field names in order
    between double quotes and the placeholders [$1] to [$n], one for each
    field and as many as the values sent with it. *)
Theorem pushInstance_statement (t : DataSourceTable) (instance : Instance) :
  Forall (fun f => placeholders (Feature.name f) = 0) (fields t) ->
  toPostgresTemplate (fst (insertSentence t instance))
  = "INSERT INTO " ++ DQ ++ tableText t ++ DQ ++ "("
      ++ join "," (map (fun f => DQ ++ Feature.name f ++ DQ) (fields t))
      ++ ") VALUES ("
      ++ join "," (dollars 1 (List.length (fields t))) ++ ")"
  /\ List.length (snd (insertSentence t instance)) = List.length (fields t).
Proof.
  intros Hnames. split.
  - unfold toPostgresTemplate.
    pose proof (templateLoop_numberFrom
                  (String.length (fst (insertSentence t instance)))
                  EmptyString (fst (insertSentence t instance)) 1%Z eq_refl
                  (Template.placeholders_le_length _)) as Hloop.
    cbn [append] in Hloop. rewrite Hloop. clear Hloop.
    unfold insertSentence, tableText. cbn [fst].
    set (names := join "," (map (fun f => DQ ++ Feature.name f ++ DQ) (fields t))).
    assert (Hn : placeholders names = 0).
    { unfold names. apply placeholders_join; [reflexivity|].
      apply Forall_map. revert Hnames. apply Forall_impl. intros f Hf.
      rewrite !Compile.placeholders_app, Hf. reflexivity. }
    assert (Hqm : map (fun _ : Feature.t => "?") (fields t)
                  = repeat "?" (List.length (fields t))).
    { clear. generalize (fields t) as fs.
      induction fs as [|f fs IH]; [reflexivity|].
      cbn [map List.length repeat]. now rewrite IH. }
    rewrite Hqm.
    replace ("INSERT INTO " ++ DQ ++ "[object Object]" ++ DQ ++ "("
              ++ names ++ ") VALUES ("
              ++ join "," (repeat "?" (List.length (fields t))) ++ ")")
      with (("INSERT INTO " ++ DQ ++ "[object Object]" ++ DQ ++ "("
              ++ names ++ ") VALUES (")
              ++ join "," (repeat "?" (List.length (fields t))) ++ ")")
      by (rewrite !append_assoc; reflexivity).
    rewrite numberFrom_app_clean.
    + rewrite numberFrom_marks by reflexivity.
      rewrite !append_assoc. reflexivity.
    + rewrite !Compile.placeholders_app, Hn. reflexivity.
  - unfold insertSentence. cbn [snd]. apply length_map.
Qed.

Lemma placeholders_DQ : placeholders DQ = 0.
Proof. reflexivity. Qed.

Section WithRuntime.
Variable rt : Runtime.
Variable t : DataSourceTable.
Hypothesis names_clean :
  Forall (fun f => placeholders (Feature.name f) = 0) (fields t).
Hypothesis table_clean : placeholders (table t) = 0.

Lemma toSQLCondition_counts (filter : option QueryTree.t) :
  exists cond,
    toSQLCondition rt (fields t) filter = Normal cond
    /\ placeholders (SQLCondition.sql cond)
       = List.length (SQLCondition.params cond).
Proof.
  destruct filter as [q|]; cbn [toSQLCondition].
  - destruct (Compile.compileNode_agrees rt (fields t) names_clean q)
      as (cond & pieces & Hc & _ & Hagree).
    exists cond. split; [exact Hc|].
    exact (proj1 (Compile.Agree_binds cond pieces Hagree)).
  - exists emptyCondition. split; reflexivity.
Qed.

Lemma field_clean (n : float) (field : Feature.t) :
  array_get (fields t) n = Some field -> placeholders (Feature.name field) = 0.
Proof.
  intros H. apply Compile.array_get_In in H.
  rewrite Forall_forall in names_clean. now apply names_clean.
Qed.

Lemma truthy_false (s : string) : truthy s = false -> s = EmptyString.
Proof.
  unfold truthy. intros H. apply negb_false_iff in H.
  now apply String.eqb_eq in H.
Qed.

Ltac count :=
  repeat rewrite Compile.placeholders_app;
  rewrite ?placeholders_DQ;
  repeat match goal with
    | H : placeholders _ = _ |- _ => rewrite H
    end;
  cbn [placeholders Ascii.eqb Bool.eqb Nat.add List.length app];
  try reflexivity; try lia.

Lemma countSentence_counts (filter : option QueryTree.t) :
  exists sentence values,
    countSentence rt t filter = Normal (sentence, values)
    /\ placeholders sentence = List.length values.
Proof.
  unfold countSentence.
  destruct (toSQLCondition_counts filter) as (cond & -> & Hcond).
  cbn [bind]. destruct (truthy (SQLCondition.sql cond));
    eexists _, _; (split; [reflexivity|]); count.
Qed.

Lemma nominalRequest_counts (filter : option QueryTree.t) (query : string)
  (feature : float) :
  exists request,
    nominalRequest rt t filter query feature = Normal request
    /\ match request with
       | Some (_, sentence, values) =>
           placeholders sentence = List.length values
       | None => True
       end.
Proof.
  unfold nominalRequest.
  destruct (array_get (fields t) feature) as [field|] eqn:Efield;
    [|exists None; split; [reflexivity | exact I]].
  pose proof (field_clean _ _ Efield) as Hname.
  destruct (Feature.type field);
    try (exists None; split; [reflexivity | exact I]).
  destruct (toSQLCondition_counts filter) as (cond & -> & Hcond).
  cbn [bind]. unfold nominalSentence.
  destruct (truthy (SQLCondition.sql cond));
    destruct (truthy (toLowerCase query));
    (eexists; split; [reflexivity|]); cbn beta iota;
    rewrite ?length_app; count.
Qed.

Hypothesis numbers_clean : forall n, placeholders (numberToString rt n) = 0.

Lemma selectSentence_counts (filter : option QueryTree.t) (order : float)
  (dir : string) (skip limit : option float) (projection : list float) :
  exists features sentence values,
    selectSentence rt t filter order dir skip limit projection
    = Normal (features, sentence, values)
    /\ placeholders sentence = List.length values.
Proof.
  unfold selectSentence.
  destruct (toSQLCondition_counts filter) as (cond & -> & Hcond).
  cbn [bind]. eexists _, _, _. split; [reflexivity|].
  assert (Hcolumns :
            placeholders
              match projection with
              | [] => "*"
              | _ :: _ =>
                  join ", "
                    (map (fun field => DQ ++ Feature.name field ++ DQ)
                       (flat_map (fun f => match array_get (fields t) f with
                                           | Some field => [field]
                                           | None => []
                                           end) projection))
              end = 0).
  { destruct projection as [|p rest]; [reflexivity|].
    apply placeholders_join; [reflexivity|].
    apply Forall_map, Forall_forall. intros field Hin.
    apply in_flat_map in Hin. destruct Hin as (n & _ & Hin).
    destruct (array_get (fields t) n) as [field'|] eqn:E; [|destruct Hin].
    destruct Hin as [<-|[]]. pose proof (field_clean _ _ E) as Hn. count. }
  assert (Hwhere :
            placeholders
              (if truthy (SQLCondition.sql cond)
               then " WHERE " ++ SQLCondition.sql cond else EmptyString)
            = List.length (if truthy (SQLCondition.sql cond)
                           then SQLCondition.params cond else [])).
  { destruct (truthy (SQLCondition.sql cond)); count. }
  destruct (truthy (SQLCondition.sql cond)) eqn:Et;
    (destruct (PrimFloat.leb 0 order);
     [destruct (array_get (fields t) order) as [field|] eqn:Eo;
      [pose proof (field_clean _ _ Eo) as Ho|]|]);
    destruct limit as [l|]; try destruct (PrimFloat.ltb 0 l);
    destruct skip as [s|]; try destruct (PrimFloat.ltb 0 s);
    try destruct (String.eqb dir "desc");
    repeat rewrite Compile.placeholders_app;
    rewrite ?placeholders_DQ, ?numbers_clean, ?Hcolumns, ?table_clean, ?Ho;
    cbn [placeholders Ascii.eqb Bool.eqb Nat.add List.length app] in *;
    try reflexivity; try lia.
Qed.

End WithRuntime.

(** X5.  For a table whose name and field names hold no [?], and a
    runtime that prints no number with one, the statements of
    [countInstances], [query] and [getNominalValues] are always built,
    and each has exactly as many placeholders as values sent with it,
    whatever the filter, the order, the limits, the projection and the
    text searched. *)
Theorem statements_have_one_placeholder_per_value (rt : Runtime)
  (t : DataSourceTable) (filter : option QueryTree.t) :
  Forall (fun f => placeholders (Feature.name f) = 0) (fields t) ->
  placeholders (table t) = 0 ->
  (forall n, placeholders (numberToString rt n) = 0) ->
  (exists sentence values,
      countSentence rt t filter = Normal (sentence, values)
      /\ placeholders sentence = List.length values)
  /\ (forall order dir skip limit projection,
       exists features sentence values,
         selectSentence rt t filter order dir skip limit projection
         = Normal (features, sentence, values)
         /\ placeholders sentence = List.length values)
  /\ (forall query feature,
       exists request,
         nominalRequest rt t filter query feature = Normal request
         /\ match request with
            | Some (_, sentence, values) =>
                placeholders sentence = List.length values
            | None => True
            end).
Proof.
  intros Hnames Htable Hnumbers. split; [|split].
  - now apply countSentence_counts.
  - intros. now apply selectSentence_counts.
  - intros. now apply nominalRequest_counts.
Qed.

End Statements.

(* ================================================================== *)
(** * The normal form of a sanitized filter *)
(* ================================================================== *)

Module Filters.
Import Js JsNotations DeepintSources Shape NormalForm Source.

Lemma substr0_length (n : nat) (s : string) :
  String.length (substr0 n s) <= n.
Proof.
  unfold substr0. revert s.
  induction n as [|n IH]; intros [|c s]; cbn [substring String.length];
    try lia.
  specialize (IH s). lia.
Qed.

Ltac bind_inv H := Sanitize.bind_inv H.

Section WithRuntime.
Variable rt : Runtime.

(** What the sanitizer writes at a node, whatever it read. *)
Lemma sanitizeLevels_node (levels : nat) (tree : value) (q : QueryTree.t) :
  sanitizeLevels rt levels tree = Normal q ->
  includes NODE_TYPES (QueryTree.type q) = true
  /\ (includes OPERATIONS (QueryTree.operation q)
      || String.eqb (QueryTree.operation q) EmptyString) = true
  /\ match QueryTree.right q with
     | Some r => (String.length r <=? 1024)%nat
     | None => true
     end = true
  /\ (isComposite (QueryTree.type q)
      || match QueryTree.children q with [] => true | _ :: _ => false end)
     = true.
Proof.
  intros H.
  assert (Hchildren : isComposite (QueryTree.type q)
                      || match QueryTree.children q with
                         | [] => true | _ :: _ => false end = true).
  { destruct (Sanitize.sanitizeLevels_children rt _ _ _ H)
      as [-> | (l' & items & _ & _ & -> & _)];
      [apply orb_true_r | reflexivity]. }
  destruct levels as [|levels']; cbn [sanitizeLevels] in H;
    (destruct (String.eqb (typeof tree) "object");
     [|injection H as <-; repeat split]);
    repeat bind_inv H; injection H as <-;
    cbn [QueryTree.type QueryTree.operation QueryTree.right
         QueryTree.children] in *.
  all: split; [|split; [|split; [|exact Hchildren]]].
  all: try match goal with
    | |- includes NODE_TYPES (if ?c then _ else _) = true =>
        destruct c eqn:Ec; [exact Ec | reflexivity]
    | |- includes OPERATIONS (if ?c then _ else _) || _ = true =>
        destruct c eqn:Ec; [|reflexivity];
        match goal with
        | |- ?a || _ = true =>
            replace a with true by (symmetry; exact Ec); reflexivity
        end
    end.
  all: match goal with
    | E : match ?v with VNull => _ | _ => _ end = Normal ?r |- _ =>
        destruct v; try (injection E as <-; reflexivity);
        bind_inv E; injection E as <-
    end.
  all: match goal with
    | |- (String.length (if ?c then _ else _) <=? 1024)%nat = true =>
        destruct c eqn:Ec;
        [apply Nat.leb_le, substr0_length
        |apply Nat.leb_le; apply Nat.ltb_ge in Ec; exact Ec]
    end.
Qed.

Lemma sanitizeLevels_wellFormed (levels : nat) :
  forall (tree : value) (q : QueryTree.t),
    sanitizeLevels rt levels tree = Normal q -> wellFormed q = true.
Proof.
  induction levels as [|levels' IH]; intros tree q H;
    pose proof (sanitizeLevels_node _ _ _ H) as (Hty & Hop & Hr & Hc);
    destruct (Sanitize.sanitizeLevels_children rt _ _ _ H)
      as [E | (l' & items & El & _ & _ & F)];
    destruct q as [ty op l r cs];
    cbn [QueryTree.type QueryTree.operation QueryTree.right
         QueryTree.children] in *;
    cbn [wellFormed]; rewrite Hty, Hop, Hr, Hc; cbn [andb].
  - subst cs. reflexivity.
  - discriminate El.
  - subst cs. reflexivity.
  - injection El as <-. apply forallb_forall. intros c Hin.
    clear H Hc. induction F as [|item c' items' cs' Hc' _ IHF];
      [destruct Hin|].
    destruct Hin as [<-|Hin]; [exact (IH _ _ Hc') | exact (IHF Hin)].
Qed.

End WithRuntime.

(** X6.  Whatever [sanitizeQueryTree] returns is in normal form at every
    node: the type is one of the five node types, the operation is one of
    the fourteen operations or empty, the literal is [null] or has at
    most 1024 characters, only a composite node has children, no node has
    more than 16 of them, and no node lies deeper than the levels left
    under [depth]. *)
Theorem sanitizeQueryTree_normal_form (rt : Runtime) (tree : value)
  (depth : nat) (q : QueryTree.t) :
  sanitizeQueryTree rt tree depth = Normal q ->
  wellFormed q = true
  /\ fanout QUERY_TREE_MAX_CHILDREN q = true
  /\ height q <= QUERY_TREE_MAX_DEPH - depth.
Proof.
  intros H. split; [exact (sanitizeLevels_wellFormed rt _ _ _ H)|].
  destruct (Sanitize.sanitizeQueryTree_shape rt _ _ _ H) as [Hh Hf].
  split; [exact Hf | exact Hh].
Qed.

Lemma includes_In (xs : list string) (s : string) :
  includes xs s = true -> In s xs.
Proof.
  unfold includes. intros H. apply existsb_exists in H.
  destruct H as (x & Hin & E). apply String.eqb_eq in E. now subst.
Qed.

Lemma toLowerCase_type (type : string) :
  includes NODE_TYPES type = true -> toLowerCase type = type.
Proof.
  intros H. apply includes_In in H. cbn [NODE_TYPES In] in H.
  repeat (destruct H as [<-|H]; [reflexivity|]). destruct H.
Qed.

Lemma toLowerCase_operation (operation : string) :
  includes OPERATIONS operation = true -> toLowerCase operation = operation.
Proof.
  intros H. apply includes_In in H. cbn [OPERATIONS In] in H.
  repeat (destruct H as [<-|H]; [reflexivity|]). destruct H.
Qed.

Lemma height_children (ty op : string) (l : float) (r : option string)
  (cs : list QueryTree.t) :
  Forall (fun c => S (height c) <= height (QueryTree.mk ty op l r cs)) cs.
Proof.
  cbn [height]. induction cs as [|c cs IH]; constructor; cbn [fold_right].
  - lia.
  - revert IH. apply Forall_impl. intros c' Hc'. lia.
Qed.

Lemma integral_children (ty op : string) (l : float) (r : option string)
  (cs : list QueryTree.t) :
  integral (QueryTree.mk ty op l r cs) ->
  Math_floor l = l /\ Forall integral cs.
Proof.
  cbn [integral]. intros [Hl Hcs]. split; [exact Hl|].
  induction cs as [|c cs IH]; constructor; cbn [fold_right] in Hcs;
    [tauto | apply IH; tauto].
Qed.

Lemma mapM_map_id {A B : Type} (f : A -> Completion B) (g : B -> A)
  (ys : list B) :
  Forall (fun y => f (g y) = Normal y) ys ->
  mapM f (map g ys) = Normal ys.
Proof.
  induction 1 as [|y ys Hy _ IH]; [reflexivity|].
  cbn [map mapM]. rewrite Hy. cbn [bind]. rewrite IH. reflexivity.
Qed.

Lemma sanitizeLevels_toValue (rt : Runtime) (q : QueryTree.t) :
  forall levels,
    wellFormed q = true -> integral q ->
    fanout QUERY_TREE_MAX_CHILDREN q = true -> height q <= levels ->
    sanitizeLevels rt levels (toValue q) = Normal q.
Proof.
  induction q as [ty op l r cs IH] using Compile.QueryTree_induction.
  intros levels Hwf Hint Hfan Hh.
  pose proof (height_children ty op l r cs) as Hcs.
  apply integral_children in Hint. destruct Hint as [Hl Hint].
  cbn [wellFormed] in Hwf. cbn [fanout] in Hfan.
  apply andb_true_iff in Hfan. destruct Hfan as [Hlen Hfan].
  apply Nat.leb_le in Hlen.
  repeat (apply andb_true_iff in Hwf; destruct Hwf as [Hwf ?]).
  rename Hwf into Hty.
  match goal with H : forallb wellFormed cs = true |- _ => rename H into Hwfs end.
  match goal with H : isComposite ty || _ = true |- _ => rename H into Hcomp end.
  match goal with H : match r with _ => _ end = true |- _ => rename H into Hr end.
  match goal with H : includes OPERATIONS op || _ = true |- _ => rename H into Hop end.
  assert (Hchildren :
            match levels, isComposite ty, VArray (map toValue cs) with
            | S levels', true, VArray items =>
                mapM (sanitizeLevels rt levels')
                  (firstn QUERY_TREE_MAX_CHILDREN items)
            | _, _, _ => Normal []
            end = Normal cs).
  { destruct cs as [|c0 cs0].
    - destruct levels, (isComposite ty); reflexivity.
    - cbn [orb] in Hcomp. rewrite orb_false_r in Hcomp. rewrite Hcomp.
      destruct levels as [|levels'].
      + inversion Hcs; subst. lia.
      + rewrite firstn_all2 by (rewrite length_map; exact Hlen).
        apply mapM_map_id.
        rewrite Forall_forall in *. intros c Hin.
        apply IH; auto.
        * rewrite forallb_forall in Hwfs. auto.
        * rewrite forallb_forall in Hfan. auto.
        * specialize (Hcs c Hin). lia. }
  assert (Htype : (if includes NODE_TYPES (toLowerCase ty)
                   then toLowerCase ty else "anyof") = ty).
  { rewrite (toLowerCase_type ty Hty), Hty. reflexivity. }
  assert (Hoper : (if includes OPERATIONS (toLowerCase op)
                   then toLowerCase op else EmptyString) = op).
  { apply orb_true_iff in Hop. destruct Hop as [Hop|Hop].
    - rewrite (toLowerCase_operation op Hop), Hop. reflexivity.
    - apply String.eqb_eq in Hop. subst op. reflexivity. }
  assert (Hright : forall s, r = Some s ->
                     (if (1024 <? String.length s)%nat
                      then substr0 1024 s else s) = s).
  { intros s ->. apply Nat.leb_le in Hr.
    destruct (Nat.ltb_spec 1024 (String.length s)); [lia | reflexivity]. }
  destruct levels as [|levels'];
    cbn [sanitizeLevels toValue typeof Get lookup String.eqb Ascii.eqb
         Bool.eqb bind ToString];
    rewrite Htype, Hoper, Hl;
    [injection Hchildren as <-|rewrite Hchildren];
    (destruct r as [s|]; cbn [ToString bind];
     [rewrite (Hright s eq_refl)|]; reflexivity).
Qed.

(** X7.  The sanitizer leaves a filter that is already in normal form as
    it is: read back as the object it stands for, a tree whose nodes are
    well formed, whose [left] fields are whole numbers, and which fits the
    limits on children and depth is returned unchanged. *)
Theorem sanitizeQueryTree_keeps_normal_forms (rt : Runtime)
  (q : QueryTree.t) (depth : nat) :
  wellFormed q = true -> integral q ->
  fanout QUERY_TREE_MAX_CHILDREN q = true ->
  height q <= QUERY_TREE_MAX_DEPH - depth ->
  sanitizeQueryTree rt (toValue q) depth = Normal q.
Proof. intros. now apply sanitizeLevels_toValue. Qed.

(** X8.  A filter that holds no [null] inside an array and no property
    named [toString] is always accepted: [sanitizeFilter] returns no
    filter for a value that counts as false, and otherwise a tree in
    normal form with at most 16 children at a node and no node deeper
    than 4. *)
Theorem sanitizeFilter_returns_a_normal_form (rt : Runtime) (json : value) :
  tame json = true ->
  exists filter,
    sanitizeFilter rt json = Normal filter
    /\ match filter with
       | None => ToBoolean json = false
       | Some q =>
           ToBoolean json = true
           /\ wellFormed q = true
           /\ fanout QUERY_TREE_MAX_CHILDREN q = true
           /\ height q <= QUERY_TREE_MAX_DEPH
       end.
Proof.
  intros Htame.
  destruct (Sanitize.sanitizeFilter_returns rt json Htame) as [filter H].
  exists filter. split; [exact H|].
  unfold sanitizeFilter in H.
  destruct (ToBoolean json); cbn [negb] in H.
  - destruct (sanitizeQueryTree rt json 0) as [q|] eqn:E; [|discriminate H].
    cbn [bind] in H. injection H as <-.
    split; [reflexivity|].
    split; [exact (sanitizeLevels_wellFormed rt _ _ _ E)|].
    destruct (Sanitize.sanitizeQueryTree_shape rt _ _ _ E) as [Hh Hf].
    split; [exact Hf|]. rewrite Nat.sub_0_r in Hh. exact Hh.
  - injection H as <-. reflexivity.
Qed.

End Filters.

(* ================================================================== *)
(** * Literals stay out of the SQL text *)
(* ================================================================== *)

Module Literals.
Import Js JsNotations DeepintSources NormalForm.

Section WithRuntime.
Variable rt : Runtime.
Variable features : list Feature.t.

Lemma comparison_returns (r : option string) (T : FeatureType) :
  exists cmp lit,
    turnInto rt match r with Some s => VString s | None => VNull end T
    = Normal cmp
    /\ ToString rt cmp = Normal lit.
Proof.
  destruct r as [s|].
  - destruct (CoercionFacts.turnInto_string_returns rt s T) as [cmp Hcmp].
    destruct (CoercionFacts.ToString_scalar rt cmp
                (CoercionFacts.turnInto_scalar rt _ _ _ Hcmp)) as [lit Hlit].
    exists cmp, lit. split; assumption.
  - exists VNull, "null". split; reflexivity.
Qed.

Lemma leafCondition_sameText (ty ty' op : string) (l : float)
  (r : option string) (cs cs' : list QueryTree.t) :
  exists cond cond',
    leafCondition rt features (QueryTree.mk ty op l r cs) = Normal cond
    /\ leafCondition rt features
         (QueryTree.mk ty' op l
            (match r with Some _ => Some EmptyString | None => None end) cs')
       = Normal cond'
    /\ SQLCondition.sql cond = SQLCondition.sql cond'
    /\ List.length (SQLCondition.params cond)
       = List.length (SQLCondition.params cond').
Proof.
  unfold leafCondition.
  cbn [QueryTree.operation QueryTree.right QueryTree.left].
  assert (Hnull : match (match r with Some _ => Some EmptyString
                                    | None => None end) with
                  | None => true | Some _ => false end
                  = match r with None => true | Some _ => false end)
    by (destruct r; reflexivity).
  rewrite Hnull.
  destruct (negb _ && _); [eexists _, _; repeat split; reflexivity|].
  destruct (array_get features l) as [feature|];
    [|eexists _, _; repeat split; reflexivity].
  destruct (comparison_returns r (Feature.type feature))
    as (cmp & lit & -> & Hlit).
  destruct (comparison_returns
              (match r with Some _ => Some EmptyString | None => None end)
              (Feature.type feature))
    as (cmp' & lit' & -> & Hlit').
  cbn [bind]. rewrite Hlit, Hlit'. cbn [bind].
  repeat match goal with
    | |- context [if ?b then _ else _] => destruct b
    end; eexists _, _; repeat split; reflexivity.
Qed.

Lemma compileNode_sameText (q : QueryTree.t) :
  exists cond cond',
    compileNode rt features q = Normal cond
    /\ compileNode rt features (eraseLiterals q) = Normal cond'
    /\ SQLCondition.sql cond = SQLCondition.sql cond'
    /\ List.length (SQLCondition.params cond)
       = List.length (SQLCondition.params cond').
Proof.
  induction q as [ty op l r cs IH] using Compile.QueryTree_induction.
  assert (Hloop : forall sep sql first params params',
             List.length params = List.length params' ->
             exists sql' first' ps ps',
               forOf (fun st child =>
                        subQ <- compileNode rt features child ;;
                        Normal (joinChild sep st subQ)) cs
                 (sql, first, params) = Normal (sql', first', ps)
               /\ forOf (fun st child =>
                           subQ <- compileNode rt features child ;;
                           Normal (joinChild sep st subQ))
                    (map eraseLiterals cs) (sql, first, params')
                  = Normal (sql', first', ps')
               /\ List.length ps = List.length ps').
  { intros sep.
    induction IH as [|child rest (c & c' & Hc & Hc' & Hsql & Hlen) _ IHrest];
      intros sql first params params' Hparams; cbn [map forOf].
    - eexists _, _, _, _. repeat split; [exact Hparams].
    - rewrite Hc, Hc'. cbn [bind]. unfold joinChild. cbv iota beta.
      rewrite <- Hsql. destruct (truthy (SQLCondition.sql c)).
      + apply IHrest. rewrite !length_app. lia.
      + apply IHrest. exact Hparams. }
  cbn [eraseLiterals compileNode].
  destruct (String.eqb ty "anyof");
    [|destruct (String.eqb ty "allof"); [|destruct (String.eqb ty "not")]].
  - destruct (Hloop " OR (" EmptyString true [] [] eq_refl)
      as (sql & f & ps & ps' & -> & -> & Hlen).
    eexists _, _. repeat split; exact Hlen.
  - destruct (Hloop " AND (" EmptyString true [] [] eq_refl)
      as (sql & f & ps & ps' & -> & -> & Hlen).
    eexists _, _. repeat split; exact Hlen.
  - destruct (Hloop " OR (" EmptyString true [] [] eq_refl)
      as (sql & f & ps & ps' & -> & -> & Hlen).
    eexists _, _. repeat split; exact Hlen.
  - apply leafCondition_sameText.
Qed.

End WithRuntime.

(** X9.  The text of a compiled condition does not depend on the
    literals of the filter: compiling the filter and compiling it with
    every literal emptied both return, with the same SQL text and as
    many parameters.  What a literal holds reaches the database in a
    parameter only. *)
Theorem toSQLCondition_text_ignores_literals (rt : Runtime)
  (features : list Feature.t) (filter : option QueryTree.t) :
  exists cond cond',
    toSQLCondition rt features filter = Normal cond
    /\ toSQLCondition rt features (option_map eraseLiterals filter)
       = Normal cond'
    /\ SQLCondition.sql cond = SQLCondition.sql cond'
    /\ List.length (SQLCondition.params cond)
       = List.length (SQLCondition.params cond').
Proof.
  destruct filter as [q|]; cbn [option_map toSQLCondition].
  - destruct (compileNode_sameText rt features q)
      as (c & c' & Hc & Hc' & Hsql & Hlen).
    exists c, c'. repeat split; assumption.
  - exists emptyCondition, emptyCondition. repeat split; reflexivity.
Qed.

End Literals.

(* ================================================================== *)
(** * The patterns of the match operations *)
(* ================================================================== *)

Module Patterns.
Import Js JsNotations DeepintSources Postgres Matching.

(** X10.  On a text field, for a literal that holds no backslash, the
    operations [sw], [ew] and [cn] compile to a [LIKE] whose pattern
    matches exactly the values that start with, end with and contain the
    literal: a [%] or [_] of the literal stands for itself. *)
Theorem match_operations_take_the_literal_as_it_is (rt : Runtime)
  (features : list Feature.t) (field : float) (feature : Feature.t)
  (literal : string) (type : string) (children : list QueryTree.t) :
  array_get features field = Some feature ->
  Feature.type feature = text ->
  plain literal = true ->
  (exists pattern,
      leafCondition rt features
        (QueryTree.mk type "sw" field (Some literal) children)
      = Normal (SQLCondition.mk (DQ ++ Feature.name feature ++ DQ ++ " LIKE ?")
                  [VString pattern])
      /\ forall subject, like pattern subject = startsWith literal subject)
  /\ (exists pattern,
        leafCondition rt features
          (QueryTree.mk type "ew" field (Some literal) children)
        = Normal (SQLCondition.mk
                    (DQ ++ Feature.name feature ++ DQ ++ " LIKE ?")
                    [VString pattern])
        /\ forall subject, like pattern subject = endsWith literal subject)
  /\ (exists pattern,
        leafCondition rt features
          (QueryTree.mk type "cn" field (Some literal) children)
        = Normal (SQLCondition.mk
                    (DQ ++ Feature.name feature ++ DQ ++ " LIKE ?")
                    [VString pattern])
        /\ forall subject, like pattern subject = contains literal subject).
Proof.
  intros Hfield Htext Hplain.
  unfold leafCondition.
  cbn [QueryTree.operation QueryTree.right QueryTree.left].
  rewrite Hfield, Htext.
  cbn [String.eqb Ascii.eqb Bool.eqb negb andb orb turnInto ToString bind].
  repeat split; eexists; (split; [reflexivity|]).
  - now apply Wildcards.like_startsWith.
  - now apply Wildcards.like_endsWith.
  - now apply Wildcards.like_contains.
Qed.

End Patterns.

(* ================================================================== *)
(** * Typed values and instances *)
(* ================================================================== *)

Module Values.
Import Js JsNotations DeepintSources Source Typing.

Section WithRuntime.
Variable rt : Runtime.

Lemma turnInto_typed (data : value) (T : FeatureType) (v : value) :
  turnInto rt data T = Normal v -> hasType v T = true.
Proof.
  assert (Hnominal : forall s, hasType (VString (substr0 255 s)) nominal = true)
    by (intros s; apply Nat.leb_le, Filters.substr0_length).
  unfold turnInto, tryCatch.
  destruct data; try (intros [= <-]; reflexivity); destruct T;
    try match goal with
      | |- context [ToString rt ?d] => destruct (ToString rt d)
      | |- context [ToNumber rt ?d] =>
          destruct (ToNumber rt d) as [num|];
          [cbn [bind]; destruct (isNaN num) eqn:En|]
      | |- context [Date_new rt ?d] => destruct (Date_new rt d) as [[t|]|]
      end; cbn [bind Date_toISOString];
    repeat match goal with
      | |- context [if ?c then _ else _] => destruct c
      end;
    try (intros [= <-]); try discriminate;
    try reflexivity; try apply Hnominal;
    try (cbn [hasType]; rewrite En; reflexivity).
Qed.

Lemma turnInto_returns (data : value) (T : FeatureType) :
  scalar data = true \/ T = logic \/ T = date ->
  exists v, turnInto rt data T = Normal v.
Proof.
  intros [H|[->| ->]].
  - destruct (CoercionFacts.ToString_scalar rt data H) as [s Hs].
    assert (Hn : exists n, ToNumber rt data = Normal n)
      by (destruct data as [| | | | |[t|]| |]; try discriminate H;
          eexists; reflexivity).
    assert (Hd : exists tv, Date_new rt data = Normal tv)
      by (destruct data as [| | | | |[t|]| |]; try discriminate H;
          eexists; reflexivity).
    destruct Hn as [n Hn], Hd as [tv Hd].
    unfold turnInto, tryCatch.
    destruct data; try discriminate H; try (eexists; reflexivity);
      destruct T; rewrite ?Hs, ?Hn, ?Hd; cbn [bind];
      try destruct (isNaN n); try destruct tv; cbn [bind Date_toISOString];
      repeat match goal with
        | |- context [if ?c then _ else _] => destruct c
        end; eexists; reflexivity.
  - unfold turnInto. destruct data; try (eexists; reflexivity);
      repeat match goal with
        | |- context [if ?c then _ else _] => destruct c
        end; eexists; reflexivity.
  - unfold turnInto, tryCatch.
    destruct data; try (eexists; reflexivity);
      match goal with
      | |- context [Date_new rt ?d] => destruct (Date_new rt d) as [[t|]|]
      end; cbn [bind Date_toISOString]; eexists; reflexivity.
Qed.

End WithRuntime.

(** X11.  A value that is neither an array nor an object is coerced
    without an error to [null] or to a value of the field's type: a
    string (of at most 255 characters for a nominal field), a number that
    is not [NaN], a boolean, or a valid date.  For the types [logic] and
    [date] this holds of every value. *)
Theorem turnInto_returns_a_value_of_the_type (rt : Runtime) (data : value)
  (T : FeatureType) :
  scalar data = true \/ T = logic \/ T = date ->
  exists v, turnInto rt data T = Normal v /\ hasType v T = true.
Proof.
  intros H. destruct (turnInto_returns rt data T H) as [v Hv].
  exists v. split; [exact Hv | exact (turnInto_typed rt _ _ _ Hv)].
Qed.

Lemma sanitizeInstances_rows (rt : Runtime) (t : DataSourceTable)
  (body : value) (instances : list Instance) :
  sanitizeInstances rt t body = Normal instances ->
  Forall (fun instance =>
            Forall2 (fun v f => hasType v (Feature.type f) = true)
              instance (fields t)) instances.
Proof.
  unfold sanitizeInstances.
  destruct body as [| | | | | |items|];
    try (intros [= <-]; constructor).
  intros H. apply Sanitize.mapM_Forall2 in H.
  induction H as [|item instance items' instances' Hrow _ IH];
    constructor; [|exact IH].
  apply Sanitize.mapM_Forall2 in Hrow.
  clear - Hrow. induction Hrow as [|f v fs vs Hv _ IH]; constructor;
    [|exact IH].
  destruct (Get _ (Feature.name f)) as [raw|]; [|discriminate Hv].
  cbn [bind] in Hv. exact (turnInto_typed rt _ _ _ Hv).
Qed.

(** X12.  Every instance [sanitizeInstances] returns has one value for
    each field of the table, in the order of the fields, and each value
    is [null] or of the type of its field; a body that is not an array
    gives no instance. *)
Theorem sanitizeInstances_one_typed_value_per_field (rt : Runtime)
  (t : DataSourceTable) (body : value) (instances : list Instance) :
  sanitizeInstances rt t body = Normal instances ->
  Forall (fun instance =>
            Forall2 (fun v f => hasType v (Feature.type f) = true)
              instance (fields t)) instances
  /\ match body with
     | VArray items => List.length instances = List.length items
     | _ => instances = []
     end.
Proof.
  intros H. split; [exact (sanitizeInstances_rows rt t body instances H)|].
  unfold sanitizeInstances in H.
  destruct body as [| | | | | |items|]; try (injection H as <-; reflexivity).
  apply Sanitize.mapM_Forall2 in H. symmetry. exact (Forall2_length H).
Qed.

Lemma indexedFields_values (fs : list FieldConfig.t) :
  forall (before instance : list value),
    List.length instance = List.length fs ->
    map (fun field => nth (Feature.index field) (before ++ instance) VUndefined)
      (indexedFields (List.length before) fs)
    = instance.
Proof.
  induction fs as [|f fs IH]; intros before [|v instance] Hlen;
    try discriminate Hlen; [reflexivity|].
  cbn [indexedFields map Feature.index]. f_equal.
  - rewrite app_nth2 by lia. now rewrite Nat.sub_diag.
  - specialize (IH (before ++ [v])%list instance).
    rewrite length_app, <- app_assoc in IH. cbn [List.length app] in IH.
    rewrite Nat.add_1_r in IH. apply IH. now injection Hlen.
Qed.

Lemma indexedFields_length (fs : list FieldConfig.t) (i : nat) :
  List.length (indexedFields i fs) = List.length fs.
Proof.
  revert i. induction fs as [|f fs IH]; intros i; [reflexivity|].
  cbn [indexedFields List.length]. now rewrite IH.
Qed.

(** X13.  In a table built from the configuration the index of a field
    is its position, so the values [pushInstance] binds to its [INSERT]
    for a sanitized instance are the values of that instance, in the
    order of the fields: what is stored is what is queued for the
    platform. *)
Theorem pushInstance_binds_the_instance (rt : Runtime)
  (config : Config.DataSourceTableConfig) (body : value)
  (instances : list Instance) :
  sanitizeInstances rt (newTable config) body = Normal instances ->
  Forall (fun instance =>
            snd (insertSentence (newTable config) instance) = instance)
    instances.
Proof.
  intros H. apply sanitizeInstances_rows in H.
  revert H. apply Forall_impl. intros instance Hrow.
  apply Forall2_length in Hrow.
  unfold insertSentence. cbn [snd]. unfold newTable in *. cbn [fields] in *.
  rewrite indexedFields_length in Hrow.
  exact (indexedFields_values (Config.fields config) [] instance Hrow).
Qed.

End Values.

(* ================================================================== *)
(** * Projections *)
(* ================================================================== *)

Module Projection.
Import Js JsNotations DeepintSources Source.

Lemma sanitizeProjection_valid (t : DataSourceTable) (projection : string) :
  Forall (fun a => exists f, array_get (fields t) a = Some f)
    (sanitizeProjection t projection).
Proof.
  unfold sanitizeProjection.
  destruct (negb (truthy projection)); [constructor|].
  apply Forall_forall. intros a Hin. apply filter_In in Hin.
  destruct Hin as [_ Hin].
  destruct (isNaN a || PrimFloat.ltb a 0); [discriminate|].
  destruct (array_get (fields t) a) as [f|]; [|discriminate].
  exists f. reflexivity.
Qed.

Lemma projected_fields (fs : list Feature.t) (p : list float) :
  Forall (fun a => exists f, array_get fs a = Some f) p ->
  Forall2 (fun a f => array_get fs a = Some f) p
    (flat_map (fun f => match array_get fs f with
                        | Some field => [field]
                        | None => []
                        end) p).
Proof.
  induction 1 as [|a p [f Hf] _ IH]; cbn [flat_map]; [constructor|].
  rewrite Hf. cbn [app]. constructor; assumption.
Qed.

Lemma array_get_NaN_or_negative {A : Type} (xs : list A) (a : float) :
  isNaN a || PrimFloat.ltb a 0 = true -> array_get xs a = None.
Proof.
  unfold isNaN, PrimFloat.is_nan, array_get.
  rewrite eqb_spec, ltb_spec.
  change (Prim2SF 0) with (S754_zero false).
  destruct (Prim2SF a) as [s|s| |[|] m e];
    unfold SFeqb, SFltb, SFcompare; try reflexivity; try discriminate.
  rewrite Z.compare_refl, Pos.compare_cont_refl. discriminate.
Qed.

Lemma sanitizeProjection_filter (t : DataSourceTable) (projection : string) :
  sanitizeProjection t projection
  = filter (fun a => match array_get (fields t) a with
                     | Some _ => true
                     | None => false
                     end)
      (map parseInt (split "," projection)).
Proof.
  unfold sanitizeProjection. destruct projection as [|c s]; [reflexivity|].
  cbn [truthy String.eqb negb].
  apply filter_ext. intros a.
  destruct (isNaN a || PrimFloat.ltb a 0) eqn:E; [|reflexivity].
  now rewrite (array_get_NaN_or_negative _ _ E).
Qed.

(** X14.  [sanitizeProjection] keeps, in the order given and with their
    repetitions, the entries of a comma-separated projection whose
    leading integer is the index of a field of the table, and drops the
    others; [query] answers a projection it returned with exactly those
    fields, one for each entry, and with all the fields when nothing is
    left of the projection. *)
Theorem sanitizeProjection_selects_fields (rt : Runtime)
  (t : DataSourceTable) (projection : string) (filter : option QueryTree.t)
  (order : float) (dir : string) (skip limit : option float) :
  sanitizeProjection t projection
  = List.filter (fun a => match array_get (fields t) a with
                          | Some _ => true
                          | None => false
                          end)
      (map parseInt (split "," projection))
  /\ exists features sentence values,
    selectSentence rt t filter order dir skip limit
      (sanitizeProjection t projection)
    = Normal (features, sentence, values)
    /\ match sanitizeProjection t projection with
       | [] => features = fields t
       | _ :: _ =>
           Forall2 (fun a f => array_get (fields t) a = Some f)
             (sanitizeProjection t projection) features
       end.
Proof.
  split; [apply sanitizeProjection_filter|].
  pose proof (sanitizeProjection_valid t projection) as Hvalid.
  apply projected_fields in Hvalid.
  unfold selectSentence.
  destruct (Queries.toSQLCondition_returns rt (fields t) filter) as [cond ->].
  cbn [bind]. eexists _, _, _. split; [reflexivity|].
  destruct (sanitizeProjection t projection); [reflexivity | exact Hvalid].
Qed.

End Projection.

(* ================================================================== *)
(** * What a query streams *)
(* ================================================================== *)

Module Streaming.
Import Js JsNotations DeepintSources Source Stream.




Section WithRuntime.
Variable rt : Runtime.
Variable features : list Feature.t.





End WithRuntime.


End Streaming.

(* ================================================================== *)
(** * Counting *)
(* ================================================================== *)

Module Counting.
Import Js JsNotations DeepintSources Source.

Section Database.
Variable rt : Runtime.
Variable Db : Type.
Variable poolQuery : Db -> string -> list value -> Db * QueryResult.



End Database.
End Counting.

(* ================================================================== *)
(** * Batches and notices *)
(* ================================================================== *)

Module Forwarding.
Import Js JsNotations DeepintSources Source Stream.

Section Worker.
Variable closed : bool.
Variable logEvents : bool.

Lemma drain_bound (updateQueue : list Instance) :
  List.length (fst (drain [] updateQueue)) <= DEEPINT_UPDATE_INSTANCES_LIMIT.
Proof.
  rewrite Ingestion.drain_spec. cbn [fst app List.length].
  rewrite Nat.sub_0_r. apply firstn_le_length.
Qed.

Lemma loopHead_inFlight : inFlight (loopHead closed) = [].
Proof. unfold loopHead. destruct closed; reflexivity. Qed.

(** One stretch keeps the batch in flight within the limit, and posts
    nothing but that batch. *)
Lemma resume_bound (w : Worker) (t : DataSourceTable) (r : Resume)
  (w' : Worker) (t' : DataSourceTable) (effects : list Effect) :
  resume closed logEvents w t r = Some (w', t', effects) ->
  List.length (inFlight w) <= DEEPINT_UPDATE_INSTANCES_LIMIT ->
  List.length (inFlight w') <= DEEPINT_UPDATE_INSTANCES_LIMIT
  /\ Forall (fun batch => List.length batch <= DEEPINT_UPDATE_INSTANCES_LIMIT)
       (posted effects).
Proof.
  intros H Hw.
  destruct w as [|batch|batch|], r as [|response|]; cbn [resume] in H;
    try discriminate H.
  - destruct (updateSem t) as [|permits]; [discriminate H|].
    destruct (negb _ && _).
    + injection H as <- <- <-. rewrite loopHead_inFlight.
      split; [cbn; lia | constructor].
    + pose proof (drain_bound (updateQueue (withUpdateSem t permits))) as Hd.
      destruct (drain [] (updateQueue (withUpdateSem t permits)))
        as [instancesToPush rest].
      injection H as <- <- <-. cbn [fst posted inFlight] in *.
      split; [exact Hd | constructor; [exact Hd | constructor]].
  - destruct (sendSettles response); [| |discriminate H];
      injection H as <- <- <-.
    + rewrite loopHead_inFlight.
      split; [cbn; lia | destruct logEvents; constructor].
    + split; [exact Hw | constructor].
  - injection H as <- <- <-. cbn [inFlight posted] in *.
    split; [exact Hw | constructor; [exact Hw | constructor]].
Qed.

Lemma step_bound (s : State) (a : Action) :
  List.length (inFlight (fst s)) <= DEEPINT_UPDATE_INSTANCES_LIMIT ->
  List.length (inFlight (fst (fst (step closed logEvents s a))))
  <= DEEPINT_UPDATE_INSTANCES_LIMIT
  /\ Forall (fun batch => List.length batch <= DEEPINT_UPDATE_INSTANCES_LIMIT)
       (posted (snd (step closed logEvents s a))).
Proof.
  destruct s as [w t]. cbn [fst]. intros Hw.
  destruct a as [instance| |r]; cbn [step fst snd posted];
    try (split; [exact Hw | constructor]).
  destruct (resume closed logEvents w t r) as [[[w' t'] effects]|] eqn:E;
    cbn [fst snd posted]; [|split; [exact Hw | constructor]].
  exact (resume_bound _ _ _ _ _ _ E Hw).
Qed.

Lemma posted_app (xs ys : list Effect) :
  posted (xs ++ ys) = (posted xs ++ posted ys)%list.
Proof.
  induction xs as [|x xs IH]; [reflexivity|].
  destruct x; cbn [app posted]; now rewrite IH.
Qed.

End Worker.

(** X17.  However instances are queued, notices arrive and the platform
    answers, a worker that starts with at most 100 instances in flight
    never posts a batch of more than 100 instances. *)
Theorem runUpdateServiceTable_never_posts_more_than_the_limit
  (closed logEvents : bool) (s : State) (actions : list Action) :
  List.length (inFlight (fst s)) <= DEEPINT_UPDATE_INSTANCES_LIMIT ->
  Forall (fun batch => List.length batch <= DEEPINT_UPDATE_INSTANCES_LIMIT)
    (posted (snd (run closed logEvents s actions))).
Proof.
  revert s. induction actions as [|a rest IH]; intros s Hs; cbn [run];
    [constructor|].
  destruct (step_bound closed logEvents s a Hs) as [Hnext Hposted].
  destruct (step closed logEvents s a) as [s' effects].
  specialize (IH s' Hnext).
  destruct (run closed logEvents s' rest) as [s'' effects'].
  cbn [fst snd] in *. rewrite posted_app. apply Forall_app. split; assumption.
Qed.






End Forwarding.

(* ================================================================== *)
(** * The push handler *)
(* ================================================================== *)

Module Requests.
Import Js JsNotations DeepintSources Source.

Section Database.
Variable rt : Runtime.
Variable Db : Type.
Variable poolQuery : Db -> string -> list value -> Db * QueryResult.




End Database.

End Requests.

(* ================================================================== *)
(** * Retrying until success *)
(* ================================================================== *)

Module Guard.
Import CrashGuard.

Lemma tryFunc_failures (failures rest : list Attempt) (delay : float) :
  Forall (fun a => a <> Fulfils) failures ->
  tryFunc (failures ++ rest) delay
  = (flat_map (fun a => [Call; ConsoleError (reason a); SetTimeout delay])
       failures ++ tryFunc rest delay)%list.
Proof.
  induction 1 as [|a failures Ha _ IH]; [reflexivity|].
  destruct a as [|ex|ex]; [contradiction| |];
    cbn [app tryFunc flat_map reason]; now rewrite IH.
Qed.

(** X21.  [runUntilSuccess] calls the function again after every
    failure, whether the call threw or its promise rejected: each failure
    is logged and followed by a timer of the delay given, or of 5000
    milliseconds when none or zero is given.  The first call that
    fulfils resolves the promise, and no call is made after it; while
    every call fails the promise stays pending. *)
Theorem runUntilSuccess_retries_until_the_first_success
  (failures rest : list Attempt) (delay : option float) :
  Forall (fun a => a <> Fulfils) failures ->
  runUntilSuccess (failures ++ Fulfils :: rest) delay
  = ((flat_map (fun a => [Call; ConsoleError (reason a);
                          SetTimeout (delayOrDefault delay)]) failures
        ++ [Call; Callback])%list,
     true)
  /\ runUntilSuccess failures delay
     = (flat_map (fun a => [Call; ConsoleError (reason a);
                            SetTimeout (delayOrDefault delay)]) failures,
        false).
Proof.
  intros Hf. unfold runUntilSuccess. split.
  - rewrite (tryFunc_failures failures (Fulfils :: rest) _ Hf).
    cbn [tryFunc]. f_equal. rewrite existsb_app. cbn [existsb].
    apply orb_true_r.
  - pose proof (tryFunc_failures failures [] (delayOrDefault delay) Hf) as E.
    rewrite !app_nil_r in E. cbn [tryFunc] in E. rewrite E. f_equal.
    clear. induction failures as [|a failures IH]; [reflexivity|].
    cbn [flat_map app existsb]. exact IH.
Qed.

End Guard.

(* ================================================================== *)
(** * The further theorems at concrete inputs *)
(* ================================================================== *)

Module Applied.
Import Js JsNotations DeepintSources Source Shape NormalForm Typing Stream.

Lemma numberToString_clean (n : float) :
  Placeholders.placeholders (SmallRuntime.numberToString n) = 0.
Proof.
  unfold SmallRuntime.numberToString.
  destruct (PrimFloat.is_nan n); [reflexivity|].
  destruct (PrimFloat.eqb n PrimFloat.infinity); [reflexivity|].
  destruct (PrimFloat.eqb n PrimFloat.neg_infinity); [reflexivity|].
  destruct (truncate n) as [z|]; [|reflexivity].
  destruct (_ && _); [|reflexivity].
  rewrite Compile.placeholders_app, Template.placeholders_decimal.
  destruct (z <? 0)%Z; reflexivity.
Qed.

Lemma pushInstance_statement_witness :
  Forall (fun f => Placeholders.placeholders (Feature.name f) = 0) (fields Examples.source)
  /\ Text.toPostgresTemplate
       (fst (insertSentence Examples.source [VNumber 5; VString "x"]))
     = "INSERT INTO " ++ DQ ++ tableText Examples.source ++ DQ ++ "("
         ++ join "," (map (fun f => DQ ++ Feature.name f ++ DQ)
                        (fields Examples.source))
         ++ ") VALUES (" ++ join "," ["$1"; "$2"] ++ ")".
Proof.
  assert (Hnames : Forall (fun f => Placeholders.placeholders (Feature.name f) = 0)
                     (fields Examples.source))
    by (repeat constructor).
  split; [exact Hnames|].
  exact (proj1 (Statements.pushInstance_statement Examples.source
                  [VNumber 5; VString "x"] Hnames)).
Defined.

Lemma statements_placeholders_witness :
  Forall (fun f => Placeholders.placeholders (Feature.name f) = 0) (fields Examples.source)
  /\ Placeholders.placeholders (table Examples.source) = 0
  /\ (forall n, Placeholders.placeholders (numberToString SmallRuntime.runtime n) = 0)
  /\ exists sentence values,
       countSentence SmallRuntime.runtime Examples.source Examples.filter
       = Normal (sentence, values)
       /\ Placeholders.placeholders sentence = List.length values.
Proof.
  assert (Hnames : Forall (fun f => Placeholders.placeholders (Feature.name f) = 0)
                     (fields Examples.source))
    by (repeat constructor).
  assert (Htable : Placeholders.placeholders (table Examples.source) = 0) by reflexivity.
  split; [exact Hnames|]. split; [exact Htable|].
  split; [exact numberToString_clean|].
  exact (proj1 (Statements.statements_have_one_placeholder_per_value
                  SmallRuntime.runtime Examples.source Examples.filter
                  Hnames Htable numberToString_clean)).
Defined.

Lemma sanitizeQueryTree_normal_form_witness :
  sanitizeQueryTree SmallRuntime.runtime Examples.filterJson 0
  = Normal Samples.tree
  /\ wellFormed Samples.tree = true
  /\ fanout QUERY_TREE_MAX_CHILDREN Samples.tree = true
  /\ height Samples.tree <= QUERY_TREE_MAX_DEPH - 0.
Proof.
  assert (H : sanitizeQueryTree SmallRuntime.runtime Examples.filterJson 0
              = Normal Samples.tree)
    by reflexivity.
  split; [exact H|].
  exact (Filters.sanitizeQueryTree_normal_form SmallRuntime.runtime
           Examples.filterJson 0 Samples.tree H).
Defined.

Lemma sanitizeQueryTree_keeps_witness :
  wellFormed Samples.tree = true
  /\ integral Samples.tree
  /\ fanout QUERY_TREE_MAX_CHILDREN Samples.tree = true
  /\ height Samples.tree <= QUERY_TREE_MAX_DEPH - 0
  /\ sanitizeQueryTree SmallRuntime.runtime (toValue Samples.tree) 0
     = Normal Samples.tree.
Proof.
  assert (Hwf : wellFormed Samples.tree = true) by reflexivity.
  assert (Hint : integral Samples.tree)
    by (cbn [integral Samples.tree fold_right]; repeat split).
  assert (Hfan : fanout QUERY_TREE_MAX_CHILDREN Samples.tree = true)
    by reflexivity.
  assert (Hh : height Samples.tree <= QUERY_TREE_MAX_DEPH - 0)
    by (apply Nat.leb_le; reflexivity).
  split; [exact Hwf|]. split; [exact Hint|]. split; [exact Hfan|].
  split; [exact Hh|].
  exact (Filters.sanitizeQueryTree_keeps_normal_forms SmallRuntime.runtime
           Samples.tree 0 Hwf Hint Hfan Hh).
Defined.

Lemma sanitizeFilter_normal_form_witness :
  tame Examples.filterJson = true
  /\ exists filter,
       sanitizeFilter SmallRuntime.runtime Examples.filterJson = Normal filter
       /\ match filter with
          | None => ToBoolean Examples.filterJson = false
          | Some q =>
              ToBoolean Examples.filterJson = true
              /\ wellFormed q = true
              /\ fanout QUERY_TREE_MAX_CHILDREN q = true
              /\ height q <= QUERY_TREE_MAX_DEPH
          end.
Proof.
  assert (H : tame Examples.filterJson = true) by reflexivity.
  split; [exact H|].
  exact (Filters.sanitizeFilter_returns_a_normal_form SmallRuntime.runtime
           Examples.filterJson H).
Defined.

Lemma match_operations_witness :
  array_get [Samples.notes] 0%float = Some Samples.notes
  /\ Feature.type Samples.notes = text
  /\ Matching.plain "50%" = true
  /\ exists pattern,
       leafCondition SmallRuntime.runtime [Samples.notes]
         (QueryTree.mk "single" "sw" 0%float (Some "50%") [])
       = Normal (SQLCondition.mk
                   (DQ ++ Feature.name Samples.notes ++ DQ ++ " LIKE ?")
                   [VString pattern])
       /\ forall subject,
            Postgres.like pattern subject = Matching.startsWith "50%" subject.
Proof.
  assert (Hfield : array_get [Samples.notes] 0%float = Some Samples.notes)
    by reflexivity.
  assert (Htext : Feature.type Samples.notes = text) by reflexivity.
  assert (Hplain : Matching.plain "50%" = true) by reflexivity.
  split; [exact Hfield|]. split; [exact Htext|]. split; [exact Hplain|].
  exact (proj1 (Patterns.match_operations_take_the_literal_as_it_is
                  SmallRuntime.runtime [Samples.notes] 0%float Samples.notes
                  "50%" "single" [] Hfield Htext Hplain)).
Defined.

Lemma turnInto_returns_witness :
  (scalar (VString "5") = true \/ numeric = logic \/ numeric = date)
  /\ exists v,
       turnInto SmallRuntime.runtime (VString "5") numeric = Normal v
       /\ hasType v numeric = true.
Proof.
  assert (H : scalar (VString "5") = true \/ numeric = logic \/ numeric = date)
    by (left; reflexivity).
  split; [exact H|].
  exact (Values.turnInto_returns_a_value_of_the_type SmallRuntime.runtime
           (VString "5") numeric H).
Defined.

Lemma sanitizeInstances_witness :
  sanitizeInstances SmallRuntime.runtime Examples.source Samples.body
  = Normal Samples.instances
  /\ Forall (fun instance =>
               Forall2 (fun v f => hasType v (Feature.type f) = true)
                 instance (fields Examples.source)) Samples.instances
  /\ List.length Samples.instances = 1.
Proof.
  assert (H : sanitizeInstances SmallRuntime.runtime Examples.source
                Samples.body = Normal Samples.instances)
    by reflexivity.
  split; [exact H|].
  exact (Values.sanitizeInstances_one_typed_value_per_field
           SmallRuntime.runtime Examples.source Samples.body
           Samples.instances H).
Defined.

Lemma pushInstance_binds_witness :
  sanitizeInstances SmallRuntime.runtime (newTable Samples.config) Samples.body
  = Normal Samples.instances
  /\ Forall (fun instance =>
               snd (insertSentence (newTable Samples.config) instance)
               = instance)
       Samples.instances.
Proof.
  assert (H : sanitizeInstances SmallRuntime.runtime
                (newTable Samples.config) Samples.body
              = Normal Samples.instances)
    by reflexivity.
  split; [exact H|].
  exact (Values.pushInstance_binds_the_instance SmallRuntime.runtime
           Samples.config Samples.body Samples.instances H).
Defined.



Lemma never_posts_more_witness :
  List.length (inFlight (fst (Acquiring, Examples.queued)))
  <= DEEPINT_UPDATE_INSTANCES_LIMIT
  /\ Forall (fun batch => List.length batch <= DEEPINT_UPDATE_INSTANCES_LIMIT)
       (posted (snd (run false false (Acquiring, Examples.queued)
                       [Wake Acquired]))).
Proof.
  assert (H : List.length (inFlight (fst (Acquiring, Examples.queued)))
              <= DEEPINT_UPDATE_INSTANCES_LIMIT)
    by (apply Nat.le_0_l).
  split; [exact H|].
  exact (Forwarding.runUpdateServiceTable_never_posts_more_than_the_limit
           false false (Acquiring, Examples.queued) [Wake Acquired] H).
Defined.




Lemma runUntilSuccess_witness :
  Forall (fun a => a <> CrashGuard.Fulfils) Samples.attempts
  /\ CrashGuard.runUntilSuccess
       (Samples.attempts ++ [CrashGuard.Fulfils; CrashGuard.Rejects "late"])
       None
     = ([CrashGuard.Call; CrashGuard.ConsoleError "ECONNREFUSED";
         CrashGuard.SetTimeout 5000;
         CrashGuard.Call; CrashGuard.ConsoleError "TypeError";
         CrashGuard.SetTimeout 5000;
         CrashGuard.Call; CrashGuard.Callback],
        true).
Proof.
  assert (H : Forall (fun a => a <> CrashGuard.Fulfils) Samples.attempts)
    by (repeat constructor; discriminate).
  split; [exact H|].
  exact (proj1 (Guard.runUntilSuccess_retries_until_the_first_success
                  Samples.attempts [CrashGuard.Rejects "late"] None H)).
Defined.

End Applied.
